(** * Allowed-extensions policy of the extension management platform

    A shallow embedding of
    [src/vs/platform/extensionManagement/common/allowedExtensionsService.ts]
    (class [AllowedExtensionsService]) and the properties of its policy
    evaluation.

    Modelling conventions.
    - A JavaScript string is a [string]: a sequence of 8-bit characters.
      [toLowerCase] folds the letters A-Z; the line terminators that the
      regular-expression dot refuses are LF and CR (U+2028 and U+2029 do not
      exist in this alphabet).
    - A JavaScript object used as a dictionary is a [gmap string _] of its
      own properties; reading [o[key]] also finds the members every object
      inherits from [Object.prototype] ([Js.get]).  The entries of an
      object, in the order [Object.entries] and [for ... in] enumerate them,
      are an association list.
    - A call either returns or throws ([Outcome]).
    - The values of the configuration dictionary have the declared type
      [boolean | string | string[]].
    - [true | IMarkdownString] is the type [Verdict]; a denial carries the
      key of the localized message it is built from. *)

From Stdlib Require Import ZArith Ascii String List Bool Lia.
From stdpp Require Import base option strings gmap.

Local Open Scope string_scope.

(** ** JavaScript strings *)

Module Js.

(** [c.toLowerCase()] on one character. *)
Definition lowerChar (c : ascii) : ascii :=
  let n := nat_of_ascii c in
  if (65 <=? n)%nat && (n <=? 90)%nat then ascii_of_nat (n + 32) else c.

(** [s.toLowerCase()]. *)
Fixpoint toLowerCase (s : string) : string :=
  match s with
  | EmptyString => EmptyString
  | String c s' => String (lowerChar c) (toLowerCase s')
  end.

(** [s.indexOf(pattern)]: the first index, or -1. *)
Definition indexOf (s pattern : string) : Z :=
  match String.index 0 pattern s with
  | Some n => Z.of_nat n
  | None => (-1)%Z
  end.

(** [s.substring(indexStart, indexEnd)]: both indices are clamped to
    [0 .. s.length] and swapped when they come in the wrong order. *)
Definition substring (s : string) (indexStart indexEnd : Z) : string :=
  let len := Z.of_nat (String.length s) in
  let clamp i := Z.max 0 (Z.min i len) in
  let a := clamp indexStart in
  let b := clamp indexEnd in
  let lo := Z.min a b in
  let hi := Z.max a b in
  String.substring (Z.to_nat lo) (Z.to_nat (hi - lo)) s.

(** Truthiness of a possibly undefined string: [undefined] and the empty
    string are falsy. *)
Definition truthy (s : option string) : bool :=
  match s with
  | Some s => negb (s =? "")
  | None => false
  end.

(** [a === b] for a possibly undefined string [a] and a string [b]. *)
Definition strictEq (a : option string) (b : string) : bool :=
  match a with
  | Some a => a =? b
  | None => false
  end.

(** [a ?? b]. *)
Definition nullish {A} (a : option A) (b : A) : A :=
  match a with
  | Some x => x
  | None => b
  end.

(** The names of the members an object inherits from [Object.prototype]. *)
Definition inheritedNames : list string :=
  [ "constructor"; "__proto__"; "hasOwnProperty"; "isPrototypeOf";
    "propertyIsEnumerable"; "toLocaleString"; "toString"; "valueOf";
    "__defineGetter__"; "__defineSetter__"; "__lookupGetter__"; "__lookupSetter__" ].

Definition inheritedMember (key : string) : bool :=
  existsb (String.eqb key) inheritedNames.

(** What [o[key]] reads on an object with the own properties [o] and the
    prototype [Object.prototype]: an own property, else an inherited member
    (a function, or the prototype itself for "__proto__"), else
    [undefined]. *)
Inductive Member (V : Type) :=
| Own (v : V)
| Inherited
| Absent.
Arguments Own {V} v.
Arguments Inherited {V}.
Arguments Absent {V}.

Definition get {V} (o : gmap string V) (key : string) : Member V :=
  match o !! key with
  | Some v => Own v
  | None => if inheritedMember key then Inherited else Absent
  end.

End Js.

(** ** Regular expressions

    The fragment of JavaScript regular expressions that [VersionRegex] is
    written in, with the backtracking semantics of [RegExp.prototype.exec]:
    quantifiers are greedy, and a quantifier gives characters back when what
    follows it fails. *)

Module RegExp.

Inductive CharClass :=
| Digit     (* \d *)
| Dot.      (* .  *)

Definition inClass (cls : CharClass) (c : ascii) : bool :=
  let n := nat_of_ascii c in
  match cls with
  | Digit => (48 <=? n)%nat && (n <=? 57)%nat
  | Dot => negb ((n =? 10)%nat || (n =? 13)%nat)
  end.

Inductive GroupName := version | platform.

Inductive t :=
| Lit (c : ascii)                 (* a literal character *)
| Class (cls : CharClass)         (* one character of a class *)
| Star (cls : CharClass)          (* cls*  *)
| Plus (cls : CharClass)          (* cls+  *)
| Seq (r1 r2 : t)                 (* r1 r2 *)
| Opt (r : t)                     (* (r)?  *)
| Named (g : GroupName) (r : t)   (* (?<g>r) *)
| Eos.                            (* $ *)

(** [match.groups] *)
Record Groups := { g_version : option string; g_platform : option string }.

Definition noGroups : Groups := {| g_version := None; g_platform := None |}.

Definition setGroup (g : GroupName) (s : string) (gs : Groups) : Groups :=
  match g with
  | version => {| g_version := Some s; g_platform := g_platform gs |}
  | platform => {| g_version := g_version gs; g_platform := Some s |}
  end.

Section Matcher.
Context {R : Type}.

(** Greedy [cls*]: take the longest run first, then give back. *)
Fixpoint star (cls : CharClass) (s : string) (k : string -> option R) : option R :=
  match s with
  | String c s' =>
      if inClass cls c then
        match star cls s' k with
        | Some r => Some r
        | None => k s
        end
      else k s
  | EmptyString => k s
  end.

(** [run r s gs k] matches [r] at the head of [s] and hands the rest of
    the input and the groups to the continuation [k]; [None] makes the
    matcher backtrack. *)
Fixpoint run (r : t) (s : string) (gs : Groups)
    (k : string -> Groups -> option R) : option R :=
  match r with
  | Lit c =>
      match s with
      | String c' s' => if Ascii.eqb c c' then k s' gs else None
      | EmptyString => None
      end
  | Class cls =>
      match s with
      | String c' s' => if inClass cls c' then k s' gs else None
      | EmptyString => None
      end
  | Star cls => star cls s (fun s' => k s' gs)
  | Plus cls =>
      match s with
      | String c' s' => if inClass cls c' then star cls s' (fun s'' => k s'' gs) else None
      | EmptyString => None
      end
  | Seq r1 r2 => run r1 s gs (fun s' gs' => run r2 s' gs' k)
  | Opt r1 =>
      match run r1 s gs k with
      | Some x => Some x
      | None => k s gs
      end
  | Named g r1 =>
      run r1 s gs (fun s' gs' =>
        k s' (setGroup g (String.substring 0 (String.length s - String.length s') s) gs'))
  | Eos =>
      match s with
      | EmptyString => k s gs
      | String _ _ => None
      end
  end.
End Matcher.

(** [r.exec(s)] for a pattern that starts with [^]: the match can only
    begin at index 0.  The result is [match.groups]. *)
Definition exec (r : t) (s : string) : option Groups :=
  run r s noGroups (fun _ gs => Some gs).

End RegExp.

(** The constant [VersionRegex].  Its pattern, token by token:
    [^ (?<version> \d+ \. \d+ \. \d+ ( - .* )? ) ( @ (?<platform> .+ ) )? $].
    The group around the pre-release suffix and the one around the platform
    suffix have no name and are not read by the service. *)
Module VersionRegexParts.
Import RegExp.

(** [\d+ \. \d+ \. \d+ ( - .* )?], the contents of the group [version]. *)
Definition semver : RegExp.t :=
  Seq (Plus Digit) (Seq (Lit ".") (Seq (Plus Digit) (Seq (Lit ".") (Seq (Plus Digit)
    (Opt (Seq (Lit "-") (Star Dot))))))).

(** [( @ (?<platform> .+ ) )?] *)
Definition platformSuffix : RegExp.t :=
  Opt (Seq (Lit "@") (Named platform (Plus Dot))).
End VersionRegexParts.

Definition VersionRegex : RegExp.t :=
  RegExp.Seq (RegExp.Named RegExp.version VersionRegexParts.semver)
             (RegExp.Seq VersionRegexParts.platformSuffix RegExp.Eos).

(** ** Data model *)

(** Modelled from the spec: the enum [TargetPlatform] is declared in
    [platform/extensions/common/extensions.ts], which is not part of the
    sources at hand.  Its members are strings; the spec names the member
    [UNIVERSAL] "universal". *)
Definition TargetPlatform := string.

Module TargetPlatformEnum.
Definition UNIVERSAL : TargetPlatform := "universal".
End TargetPlatformEnum.

(** A value of the configuration dictionary: [boolean | string | string[]]. *)
Inductive PolicyValue :=
| VBool (b : bool)
| VString (s : string)
| VArray (vs : list string).

(** What [configurationService.getValue(AllowedExtensionsConfigKey)] can
    return: nothing, a primitive, an array, or an object, given by its
    entries in enumeration order (the keys of an object are distinct). *)
Inductive ConfigValue :=
| CUndefined
| CNull
| CBoolean (b : bool)
| CNumber (n : Z)
| CString (s : string)
| CArray (vs : list PolicyValue)
| CObject (entries : list (string * PolicyValue)).

(** Modelled from the spec: [isObject] of [base/common/types.ts] is not part
    of the sources at hand; the spec has every shape other than a mapping
    count as no policy.  It holds of non-null values of type object that are
    not arrays. *)
Definition isObject (value : ConfigValue) : bool :=
  match value with
  | CObject _ => true
  | _ => false
  end.

(** [Array.isArray] on a configuration value and on a dictionary value. *)
Definition Array_isArray (value : ConfigValue) : bool :=
  match value with
  | CArray _ => true
  | _ => false
  end.

(** Modelled from the spec: [isBoolean] of [base/common/types.ts] is not part
    of the sources at hand; it holds of the boolean shape of a value, [true]
    or [false]. *)
Definition isBoolean (value : PolicyValue) : bool :=
  match value with
  | VBool _ => true
  | _ => false
  end.

(** [value === true] and [value === s] on a dictionary value. *)
Definition isTrue (value : PolicyValue) : bool :=
  match value with
  | VBool b => b
  | _ => false
  end.

Definition isString (value : PolicyValue) (s : string) : bool :=
  match value with
  | VString s' => s' =? s
  | _ => false
  end.

(** [Array.isArray(value)] and [value.some(f)] on a dictionary value. *)
Definition isArray (value : PolicyValue) : bool :=
  match value with
  | VArray _ => true
  | _ => false
  end.

Definition some (value : PolicyValue) (f : string -> bool) : bool :=
  match value with
  | VArray vs => existsb f vs
  | _ => false
  end.

(** [Object.entries] of a configuration value that passed [isObject]. *)
Definition Object_entries (value : ConfigValue) : list (string * PolicyValue) :=
  match value with
  | CObject entries => entries
  | _ => []
  end.

(** [Object.fromEntries]: a later entry overwrites an earlier one with the
    same key. *)
Definition Object_fromEntries {V} (entries : list (string * V)) : gmap string V :=
  fold_left (fun m kv => <[kv.1 := kv.2]> m) entries ∅.

(** The three shapes [isAllowed] accepts. *)
Module IGalleryExtension.
Record t := {
  identifier_id : string;                  (* identifier.id *)
  version : string;
  publisher : string;
  properties_isPreReleaseVersion : bool;   (* properties.isPreReleaseVersion *)
  properties_targetPlatform : TargetPlatform  (* properties.targetPlatform *)
}.
End IGalleryExtension.

Module IExtension.
Record t := {
  identifier_id : string;                  (* identifier.id *)
  manifest_version : string;               (* manifest.version *)
  manifest_publisher : string;             (* manifest.publisher *)
  preRelease : bool;
  targetPlatform : TargetPlatform
}.
End IExtension.

Module MinimalExtension.
Record t := {
  id : string;
  version : option string;
  prerelease : option bool;
  targetPlatform : option TargetPlatform
}.
End MinimalExtension.

(** The argument of [isAllowed]; the constructor records which of the type
    guards [isGalleryExtension] and [isIExtension] holds. *)
Inductive Extension :=
| Gallery (extension : IGalleryExtension.t)
| Installed (extension : IExtension.t)
| Minimal (extension : MinimalExtension.t).

(** The message keys of the four denials. *)
Inductive Reason :=
| specific_extension_not_allowed
| extension_prerelease_not_allowed
| publisher_not_allowed
| prerelease_versions_from_this_publisher_not_allowed.

(** [true | IMarkdownString] *)
Inductive Verdict :=
| Allowed
| Denied (reason : Reason).

(** What a call does: it returns a value or throws. *)
Inductive JsError := TypeError.

Inductive Outcome (A : Type) :=
| Returns (a : A)
| Throws (e : JsError).
Arguments Returns {A} a.
Arguments Throws {A} e.

(** The fields of the service. *)
Record AllowedExtensionsService := {
  allowedExtensions : option (gmap string PolicyValue);
  publisherMappings : gmap string string
}.

(** ** The service *)

(** [getAllowedExtensionsValue], on the value the configuration service
    returns. *)
Definition getAllowedExtensionsValue (value : ConfigValue) : option (gmap string PolicyValue) :=
  if negb (isObject value) || Array_isArray value then None
  else
    let entries := map (fun kv => (Js.toLowerCase kv.1, kv.2)) (Object_entries value) in
    if (length entries =? 1)%nat
       && Js.nullish ((fun kv => (kv.1 =? "*") && isTrue kv.2) <$> head entries) false
    then None
    else Some (Object_fromEntries entries).

(** The loop of the constructor over [productService.extensionPublisherMappings],
    given by its entries in enumeration order.  The assignment
    [this.publisherMappings[key] = value] under the key "__proto__" goes to
    the setter [Object.prototype] has for it, which ignores a string: no
    property is created. *)
Definition buildPublisherMappings (extensionPublisherMappings : list (string * string))
    : gmap string string :=
  fold_left (fun m kv =>
               if Js.toLowerCase kv.1 =? "__proto__" then m
               else <[Js.toLowerCase kv.1 := Js.toLowerCase kv.2]> m)
            extensionPublisherMappings ∅.

(** The constructor. *)
Definition constructor (extensionPublisherMappings : list (string * string))
    (value : ConfigValue) : AllowedExtensionsService :=
  {| allowedExtensions := getAllowedExtensionsValue value;
     publisherMappings := buildPublisherMappings extensionPublisherMappings |}.

(** The five locals [isAllowed] derives from its argument. *)
Module Locals.
Record t := {
  id : string;
  version : string;
  targetPlatform : TargetPlatform;
  prerelease : bool;
  publisher : string
}.
End Locals.

Definition locals (extension : Extension) : Locals.t :=
  match extension with
  | Gallery extension =>
      {| Locals.id := Js.toLowerCase (IGalleryExtension.identifier_id extension);
         Locals.version := IGalleryExtension.version extension;
         Locals.prerelease := IGalleryExtension.properties_isPreReleaseVersion extension;
         Locals.publisher := Js.toLowerCase (IGalleryExtension.publisher extension);
         Locals.targetPlatform := IGalleryExtension.properties_targetPlatform extension |}
  | Installed extension =>
      {| Locals.id := Js.toLowerCase (IExtension.identifier_id extension);
         Locals.version := IExtension.manifest_version extension;
         Locals.prerelease := IExtension.preRelease extension;
         Locals.publisher := Js.toLowerCase (IExtension.manifest_publisher extension);
         Locals.targetPlatform := IExtension.targetPlatform extension |}
  | Minimal extension =>
      let id := MinimalExtension.id extension in
      {| Locals.id := Js.toLowerCase id;
         Locals.version := Js.nullish (MinimalExtension.version extension) "*";
         Locals.targetPlatform :=
           Js.nullish (MinimalExtension.targetPlatform extension) TargetPlatformEnum.UNIVERSAL;
         Locals.prerelease := Js.nullish (MinimalExtension.prerelease extension) false;
         Locals.publisher := Js.toLowerCase (Js.substring id 0 (Js.indexOf id ".")) |}
  end.

(** The callback of [extensionValue.some]: does the entry [entry] of the
    version list admit [version] on [targetPlatform]? *)
Definition versionMatches (version : string) (targetPlatform : TargetPlatform)
    (entry : string) : bool :=
  match RegExp.exec VersionRegex entry with
  | Some groups =>
      let p := RegExp.g_platform groups in
      let v := RegExp.g_version groups in
      if negb (Js.strictEq v version) then false
      else if negb (targetPlatform =? TargetPlatformEnum.UNIVERSAL)
              && Js.truthy p
              && negb (Js.strictEq p targetPlatform)
      then false
      else true
  | None => false
  end.

(** The alias of the publisher, looked up before the publisher rule:
    [this.publisherMappings[publisher]?.toLowerCase() ?? publisher].  An
    inherited member is neither null nor undefined and has no method
    [toLowerCase]: the call throws a [TypeError]. *)
Definition resolvePublisher (mappings : gmap string string) (publisher : string)
    : Outcome string :=
  match Js.get mappings publisher with
  | Js.Own alias => Returns (Js.toLowerCase alias)
  | Js.Inherited => Throws TypeError
  | Js.Absent => Returns publisher
  end.

(** [isAllowed].  An inherited member read as [extensionValue] or
    [publisherValue] is not undefined, not a boolean, not equal to "release"
    and not an array: the rule it is read for returns [true]. *)
Definition isAllowed (this : AllowedExtensionsService) (extension : Extension)
    : Outcome Verdict :=
  match allowedExtensions this with
  | None => Returns Allowed
  | Some allowed =>
      let l := locals extension in
      let id := Locals.id l in
      let version := Locals.version l in
      let targetPlatform := Locals.targetPlatform l in
      let prerelease := Locals.prerelease l in
      let publisher := Locals.publisher l in
      let extensionReason := Denied specific_extension_not_allowed in
      match Js.get allowed id with
      | Js.Own extensionValue =>
          Returns
            (if isBoolean extensionValue then
               if isTrue extensionValue then Allowed else extensionReason
             else if isString extensionValue "release" && prerelease then
               Denied extension_prerelease_not_allowed
             else if negb (version =? "*")
                     && isArray extensionValue
                     && negb (some extensionValue (versionMatches version targetPlatform))
             then extensionReason
             else Allowed)
      | Js.Inherited => Returns Allowed
      | Js.Absent =>
          match resolvePublisher (publisherMappings this) publisher with
          | Throws e => Throws e
          | Returns publisher =>
              match Js.get allowed publisher with
              | Js.Own publisherValue =>
                  Returns
                    (if isBoolean publisherValue then
                       if isTrue publisherValue then Allowed
                       else Denied publisher_not_allowed
                     else if isString publisherValue "release" && prerelease then
                       Denied prerelease_versions_from_this_publisher_not_allowed
                     else Allowed)
              | Js.Inherited => Returns Allowed
              | Js.Absent =>
                  Returns
                    (if match Js.get allowed "*" with
                        | Js.Own value => isTrue value
                        | _ => false
                        end
                     then Allowed
                     else extensionReason)
              end
          end
      end
  end.

(** ** Vocabulary of the statements *)

(** The version component and the platform suffix that [VersionRegex] reads
    off an entry of a version list. *)
Definition entryVersion (entry : string) : option string :=
  RegExp.exec VersionRegex entry ≫= RegExp.g_version.

Definition entryPlatform (entry : string) : option string :=
  RegExp.exec VersionRegex entry ≫= RegExp.g_platform.

(** Strings made of characters of one class, and decimal numbers. *)
Fixpoint allInClass (cls : RegExp.CharClass) (s : string) : bool :=
  match s with
  | EmptyString => true
  | String c s' => RegExp.inClass cls c && allInClass cls s'
  end.

Definition isNumber (s : string) : bool :=
  negb (s =? "") && allInClass RegExp.Digit s.

(** The input [rest] does not go on with a character of the class. *)
Definition stopsAt (cls : RegExp.CharClass) (rest : string) : Prop :=
  match rest with
  | EmptyString => True
  | String c _ => RegExp.inClass cls c = false
  end.

(** [consumes r]: every match of [r] takes at least one character. *)
Fixpoint consumes (r : RegExp.t) : bool :=
  match r with
  | RegExp.Lit _ | RegExp.Class _ | RegExp.Plus _ => true
  | RegExp.Seq r1 r2 => consumes r1 || consumes r2
  | RegExp.Named _ r1 => consumes r1
  | RegExp.Star _ | RegExp.Opt _ | RegExp.Eos => false
  end.

(** [groupsConsume r]: every named group of [r] is around such a pattern. *)
Fixpoint groupsConsume (r : RegExp.t) : bool :=
  match r with
  | RegExp.Seq r1 r2 => groupsConsume r1 && groupsConsume r2
  | RegExp.Opt r1 => groupsConsume r1
  | RegExp.Named _ r1 => consumes r1 && groupsConsume r1
  | _ => true
  end.

(** No group holds the empty string. *)
Definition nonEmptyGroups (gs : RegExp.Groups) : Prop :=
  RegExp.g_version gs <> Some "" /\ RegExp.g_platform gs <> Some "".

(** A version [major.minor.patch] without pre-release suffix. *)
Definition plainVersion (major minor patch : string) : string :=
  major ++ "." ++ minor ++ "." ++ patch.

(** The same service with another alias table. *)
Definition withPublisherMappings (this : AllowedExtensionsService)
    (mappings : gmap string string) : AllowedExtensionsService :=
  {| allowedExtensions := allowedExtensions this; publisherMappings := mappings |}.

(** A gallery record and an installed record under another publisher. *)
Definition galleryWithPublisher (extension : IGalleryExtension.t) (publisher : string)
    : IGalleryExtension.t :=
  {| IGalleryExtension.identifier_id := IGalleryExtension.identifier_id extension;
     IGalleryExtension.version := IGalleryExtension.version extension;
     IGalleryExtension.publisher := publisher;
     IGalleryExtension.properties_isPreReleaseVersion :=
       IGalleryExtension.properties_isPreReleaseVersion extension;
     IGalleryExtension.properties_targetPlatform :=
       IGalleryExtension.properties_targetPlatform extension |}.

Definition installedWithPublisher (extension : IExtension.t) (publisher : string)
    : IExtension.t :=
  {| IExtension.identifier_id := IExtension.identifier_id extension;
     IExtension.manifest_version := IExtension.manifest_version extension;
     IExtension.manifest_publisher := publisher;
     IExtension.preRelease := IExtension.preRelease extension;
     IExtension.targetPlatform := IExtension.targetPlatform extension |}.

(** The minimal record [{ id, version, prerelease, targetPlatform }]. *)
Definition minimal (id : string) (version : option string) (prerelease : option bool)
    (targetPlatform : option TargetPlatform) : Extension :=
  Minimal {| MinimalExtension.id := id;
             MinimalExtension.version := version;
             MinimalExtension.prerelease := prerelease;
             MinimalExtension.targetPlatform := targetPlatform |}.

(** ** Further parts of the service *)

(** The entries with their keys in lower case (line 63). *)
Definition lowerKeys {V} (entries : list (string * V)) : list (string * V) :=
  map (fun kv => (Js.toLowerCase kv.1, kv.2)) entries.

(** The value of the last entry under [key]. *)
Fixpoint lookupLast {V} (key : string) (entries : list (string * V)) : option V :=
  match entries with
  | [] => None
  | kv :: rest =>
      match lookupLast key rest with
      | Some v => Some v
      | None => if kv.1 =? key then Some kv.2 else None
      end
  end.

(** Both directions of the characterisations of a verdict, case by case. *)
Ltac reason_cases :=
  repeat split; try discriminate;
  try solve [ intros;
              repeat match goal with
              | H : _ /\ _ |- _ => destruct H
              | H : _ \/ _ |- _ => destruct H
              | H : exists _, _ |- _ => destruct H
              end;
              first [congruence | eauto 8] ].

(** ** What a pattern matches

    [matched r w rest gs gs']: the pattern [r] matches the text [w] when
    [rest] follows it, and takes the groups from [gs] to [gs']. *)
Fixpoint matched (r : RegExp.t) (w rest : string) (gs gs' : RegExp.Groups) : Prop :=
  match r with
  | RegExp.Lit c => w = String c "" /\ gs' = gs
  | RegExp.Class cls =>
      exists c, w = String c "" /\ RegExp.inClass cls c = true /\ gs' = gs
  | RegExp.Star cls => allInClass cls w = true /\ gs' = gs
  | RegExp.Plus cls => w <> "" /\ allInClass cls w = true /\ gs' = gs
  | RegExp.Seq r1 r2 =>
      exists w1 w2 gs1,
        w = w1 ++ w2 /\ matched r1 w1 (w2 ++ rest) gs gs1 /\ matched r2 w2 rest gs1 gs'
  | RegExp.Opt r1 => (w = "" /\ gs' = gs) \/ matched r1 w rest gs gs'
  | RegExp.Named g r1 =>
      exists gs1, matched r1 w rest gs gs1 /\ gs' = RegExp.setGroup g w gs1
  | RegExp.Eos => w = "" /\ rest = "" /\ gs' = gs
  end.

(** The text after the patch number: nothing, or a dash and a pre-release
    tag without line terminators. *)
Definition isPrereleaseSuffix (suffix : string) : Prop :=
  suffix = "" \/ exists tag, suffix = "-" ++ tag /\ allInClass RegExp.Dot tag = true.

(** The text does not begin with a digit. *)
Definition noLeadingDigit (s : string) : Prop :=
  match s with
  | EmptyString => True
  | String c _ => RegExp.inClass RegExp.Digit c = false
  end.

(** ** Git blame: [extensions/git/src/blame.ts]

    Line numbers are integers.  The types [TextEditorChange] and
    [TextEditorChangeKind] are declared outside the sources at hand; the
    source uses them through the fields and members named here, and a kind
    outside the three members is [UnexpectedKind].  A thrown error is
    [None]. *)

Module Blame.

Record TextEditorLineRange := {
  startLineNumber : Z;
  endLineNumberExclusive : Z
}.

Inductive TextEditorChangeKind :=
| Addition
| Deletion
| Modification
| UnexpectedKind.

Record TextEditorChange := {
  original : TextEditorLineRange;
  modified : TextEditorLineRange;
  kind : TextEditorChangeKind
}.

(** [lineRangesContainLine] *)
Definition lineRangesContainLine (changes : list TextEditorChange) (lineNumber : Z) : bool :=
  existsb (fun c =>
             (startLineNumber (modified c) <=? lineNumber)%Z
             && (lineNumber <? endLineNumberExclusive (modified c))%Z)
          changes.

(** [lineRangeLength] *)
Definition lineRangeLength (startLineNumber endLineNumberExclusive : Z) : Z :=
  (endLineNumberExclusive - startLineNumber)%Z.

(** The [for] loop of [mapModifiedLineNumberToOriginalLineNumber] on the
    changes that are left, with the current value of [lineNumber]. *)
Fixpoint mapLoop (lineNumber : Z) (changes : list TextEditorChange) : option Z :=
  match changes with
  | [] => Some lineNumber
  | change :: changes' =>
      if (lineNumber <? startLineNumber (modified change))%Z then Some lineNumber
      else
        match kind change with
        | Addition =>
            mapLoop (lineNumber
                     - lineRangeLength (startLineNumber (modified change))
                                       (endLineNumberExclusive (modified change)))%Z
                    changes'
        | Deletion =>
            mapLoop (lineNumber
                     + lineRangeLength (startLineNumber (original change))
                                       (endLineNumberExclusive (original change)))%Z
                    changes'
        | Modification =>
            let originalRangeLength :=
              lineRangeLength (startLineNumber (original change))
                              (endLineNumberExclusive (original change)) in
            let modifiedRangeLength :=
              lineRangeLength (startLineNumber (modified change))
                              (endLineNumberExclusive (modified change)) in
            if negb (originalRangeLength =? modifiedRangeLength)%Z
            then mapLoop (lineNumber - (modifiedRangeLength - originalRangeLength))%Z changes'
            else mapLoop lineNumber changes'
        | UnexpectedKind => None
        end
  end.

(** [mapModifiedLineNumberToOriginalLineNumber] *)
Definition mapModifiedLineNumberToOriginalLineNumber (lineNumber : Z)
    (changes : list TextEditorChange) : option Z :=
  if (length changes =? 0)%nat then Some lineNumber
  else mapLoop lineNumber changes.

(** A range of lines a commit is blamed for, both ends included. *)
Module BlameRange.
Record t := {
  startLineNumber : Z;
  endLineNumber : Z
}.
End BlameRange.

Section LineBlame.

(** [BlameInformation] is declared in [git.ts]; the loop reads its
    [ranges]. *)
Context {BlameInformation : Type}.
Context (ranges : BlameInformation -> list BlameRange.t).

(** [BlameInformation | string]; the string is the message handed to
    [l10n.t]. *)
Inductive LineBlameValue :=
| Text (message : string)
| Commit (blameInformation : BlameInformation).

Record LineBlameInformation := {
  lineNumber : Z;
  blameInformation : LineBlameValue
}.

(** The test of the inner [find]: the range holds the line. *)
Definition rangeHolds (lineNumberWithDiff : Z) (range : BlameRange.t) : bool :=
  (lineNumberWithDiff >=? BlameRange.startLineNumber range)%Z
  && (lineNumberWithDiff <=? BlameRange.endLineNumber range)%Z.

(** The loop of [_updateTextEditorBlameInformation] over the active lines
    of the selections (lines 247-272), on the values the method has at that
    point: the changes of the working tree, those of working tree and index
    when that diff information is present, and the blame information of the
    resource. *)
Fixpoint lineBlameLoop (workingTree : list TextEditorChange)
    (workingTreeAndIndex : option (list TextEditorChange))
    (resourceBlameInformation : list BlameInformation)
    (lines : list Z) : option (list LineBlameInformation) :=
  match lines with
  | [] => Some []
  | lineNumber :: lines' =>
      let continue_ := lineBlameLoop workingTree workingTreeAndIndex
                                     resourceBlameInformation lines' in
      let push entry := option_map (cons entry) continue_ in
      if lineRangesContainLine workingTree (lineNumber + 1)%Z then
        push {| lineNumber := lineNumber; blameInformation := Text "Not Committed Yet" |}
      else if lineRangesContainLine (Js.nullish workingTreeAndIndex []) (lineNumber + 1)%Z then
        push {| lineNumber := lineNumber;
                blameInformation := Text "Not Committed Yet (Staged)" |}
      else
        match mapModifiedLineNumberToOriginalLineNumber
                (lineNumber + 1)%Z (Js.nullish workingTreeAndIndex workingTree) with
        | None => None
        | Some lineNumberWithDiff =>
            match List.find (fun b => existsb (rangeHolds lineNumberWithDiff) (ranges b))
                            resourceBlameInformation with
            | Some b => push {| lineNumber := lineNumber; blameInformation := Commit b |}
            | None => continue_
            end
        end
  end.

End LineBlame.

(** The amount by which a change that is processed moves the line number
    down. *)
Definition shift (change : TextEditorChange) : Z :=
  match kind change with
  | Addition =>
      lineRangeLength (startLineNumber (modified change))
                      (endLineNumberExclusive (modified change))
  | Deletion =>
      (- lineRangeLength (startLineNumber (original change))
                         (endLineNumberExclusive (original change)))%Z
  | Modification =>
      (lineRangeLength (startLineNumber (modified change))
                       (endLineNumberExclusive (modified change))
       - lineRangeLength (startLineNumber (original change))
                         (endLineNumberExclusive (original change)))%Z
  | UnexpectedKind => 0%Z
  end.

(** An editor with two lines added as lines 3 and 4, nothing staged, and
    one commit blamed for the lines 1 to 10 of the file; the cursors are on
    the lines 1, 4 and 8 of the editor, which the selections count from 0. *)
Module Example.
Definition changes : list TextEditorChange :=
  [ {| original := {| startLineNumber := 3; endLineNumberExclusive := 3 |};
       modified := {| startLineNumber := 3; endLineNumberExclusive := 5 |};
       kind := Addition |} ].
Definition ranges (commit : string) : list BlameRange.t :=
  [ {| BlameRange.startLineNumber := 1; BlameRange.endLineNumber := 10 |} ].
Definition resource : list string := ["0a1b2c3d4e"].
Definition lines : list Z := [0; 3; 7]%Z.
Definition reported : list (@LineBlameInformation string) :=
  [ {| lineNumber := 0; blameInformation := Commit "0a1b2c3d4e" |};
    {| lineNumber := 3; blameInformation := Text "Not Committed Yet" |};
    {| lineNumber := 7; blameInformation := Commit "0a1b2c3d4e" |} ].
End Example.

End Blame.

(** ** Focus tracking: the class [FocusTracker]

    The calls of the callback [_onFocusChange] are the second component of
    a step, in order. *)

Module FocusTracker.

Record t := { _isFocused : bool }.

(** The state a new tracker starts in. *)
Definition create : t := {| _isFocused := false |}.

(** [_handleFocusedChanged] *)
Definition _handleFocusedChanged (this : t) (focused : bool) : t * list bool :=
  if Bool.eqb (_isFocused this) focused then (this, [])
  else ({| _isFocused := focused |}, [focused]).

(** The two events of the DOM node the constructor listens to. *)
Inductive DomEvent := focus | blur.

Definition focusedOf (event : DomEvent) : bool :=
  match event with
  | focus => true
  | blur => false
  end.

(** The tracker on a sequence of events. *)
Fixpoint handle (this : t) (events : list DomEvent) : t * list bool :=
  match events with
  | [] => (this, [])
  | event :: events' =>
      let '(this', calls) := _handleFocusedChanged this (focusedOf event) in
      let '(this'', calls') := handle this' events' in
      (this'', (calls ++ calls')%list)
  end.

(** A list of booleans in which neighbours differ. *)
Fixpoint alternating (previous : bool) (calls : list bool) : Prop :=
  match calls with
  | [] => True
  | call :: calls' => call <> previous /\ alternating call calls'
  end.

End FocusTracker.

(** Strings whose characters all satisfy a test; digits and dots. *)
Fixpoint allChars (test : ascii -> bool) (s : string) : bool :=
  match s with
  | EmptyString => true
  | String c s' => test c && allChars test s'
  end.

Definition isDigitOrDot (c : ascii) : bool :=
  RegExp.inClass RegExp.Digit c || Ascii.eqb c ".".

(** A platform suffix the pattern reads: not empty, without line
    terminator. *)
Definition isPlatformSuffix (p : string) : Prop :=
  p <> "" /\ allInClass RegExp.Dot p = true.

(** The entry is the version, alone or followed by "@" and a platform
    suffix. *)
Definition entryOfVersion (version entry : string) : Prop :=
  entry = version \/ exists p, entry = version ++ "@" ++ p /\ isPlatformSuffix p.

(** The reading of the wildcard, [this.allowedExtensions['*'] === true]. *)
Definition wildcardIsTrue (allowed : gmap string PolicyValue) : bool :=
  match Js.get allowed "*" with
  | Js.Own value => isTrue value
  | _ => false
  end.

(** Entering [isAllowed] with a table loaded and the id's entry known. *)
Ltac enter_isAllowed :=
  unfold isAllowed;
  repeat match goal with
  | H : allowedExtensions _ = _ |- _ => rewrite H
  end;
  cbv zeta; unfold Js.get;
  repeat match goal with
  | H : _ !! Locals.id _ = _ |- _ => rewrite H
  end.

(** ** Strings *)

(** A string without a dot: [indexOf] finds nothing. *)
Lemma indexOf_absent s :
  (forall n, String.get n s <> Some "."%char) -> Js.indexOf s "." = (-1)%Z.
Proof.
  intros Hs. unfold Js.indexOf.
  destruct (String.index 0 "." s) as [m|] eqn:Hidx; [|reflexivity].
  exfalso. apply (Hs m).
  apply String.index_correct1 in Hidx. simpl String.length in Hidx.
  rewrite <- (Nat.add_0_l m).
  rewrite <- (String.substring_correct1 s m 1 0) by lia.
  now rewrite Hidx.
Qed.

Lemma substring_to_absent s : Js.substring s 0 (-1) = "".
Proof.
  unfold Js.substring.
  replace (Z.max 0 (Z.min (-1) (Z.of_nat (String.length s)))) with 0%Z by lia.
  replace (Z.max 0 (Z.min 0 (Z.of_nat (String.length s)))) with 0%Z by lia.
  simpl. now destruct s.
Qed.

(** The publisher derived from an id without a dot is empty. *)
Lemma publisher_of_dotless id version prerelease targetPlatform :
  (forall n, String.get n id <> Some "."%char) ->
  Locals.publisher (locals (minimal id version prerelease targetPlatform)) = "".
Proof.
  intros Hid. simpl. now rewrite (indexOf_absent id Hid), substring_to_absent.
Qed.

Lemma append_cons c (s t : string) : String c s ++ t = String c (s ++ t).
Proof. reflexivity. Qed.

Lemma append_nil_l (t : string) : "" ++ t = t.
Proof. reflexivity. Qed.

Lemma append_nil_r (s : string) : s ++ "" = s.
Proof.
  induction s as [|c s IH]; [reflexivity|].
  now rewrite append_cons, IH.
Qed.

Lemma append_assoc (s t u : string) : (s ++ t) ++ u = s ++ t ++ u.
Proof.
  induction s as [|c s IH]; [reflexivity|].
  now rewrite !append_cons, IH.
Qed.

Lemma length_append (s t : string) :
  String.length (s ++ t) = (String.length s + String.length t)%nat.
Proof.
  induction s as [|c s IH]; [reflexivity|].
  rewrite append_cons. simpl. now rewrite IH.
Qed.

Lemma substring_all (s : string) : String.substring 0 (String.length s) s = s.
Proof. induction s as [|c s IH]; simpl; [reflexivity|now rewrite IH]. Qed.

(** The text a group has consumed, recovered from what is left. *)
Lemma substring_consumed (s t : string) :
  String.substring 0 (String.length (s ++ t) - String.length t) (s ++ t) = s.
Proof.
  rewrite length_append.
  replace (String.length s + String.length t - String.length t)%nat
    with (String.length s) by lia.
  induction s as [|c s IH].
  - rewrite append_nil_l. now destruct t.
  - rewrite append_cons. simpl. now rewrite IH.
Qed.

(** ** The matcher on well-formed entries *)

Section MatcherLemmas.
Context {R : Type}.
Implicit Types (k : string -> RegExp.Groups -> option R).

(** A greedy star takes a whole run of the class when the continuation
    accepts what follows the run. *)
Lemma star_run cls (ds rest : string) (k : string -> option R) r :
  allInClass cls ds = true -> stopsAt cls rest -> k rest = Some r ->
  RegExp.star cls (ds ++ rest) k = Some r.
Proof.
  intros Hds Hrest Hk. induction ds as [|c ds IH].
  - rewrite append_nil_l. destruct rest as [|c rest]; simpl; [exact Hk|].
    simpl in Hrest. now rewrite Hrest.
  - simpl in Hds. apply andb_true_iff in Hds as [Hc Hds].
    rewrite append_cons. simpl. now rewrite Hc, (IH Hds).
Qed.

Lemma plus_run cls (ds rest : string) gs k r :
  ds <> "" -> allInClass cls ds = true -> stopsAt cls rest -> k rest gs = Some r ->
  RegExp.run (RegExp.Plus cls) (ds ++ rest) gs k = Some r.
Proof.
  intros Hne Hds Hrest Hk. destruct ds as [|c ds]; [congruence|].
  simpl in Hds. apply andb_true_iff in Hds as [Hc Hds].
  rewrite append_cons. simpl. rewrite Hc.
  now apply star_run.
Qed.

Lemma number_run (ds rest : string) gs k r :
  isNumber ds = true -> stopsAt RegExp.Digit rest -> k rest gs = Some r ->
  RegExp.run (RegExp.Plus RegExp.Digit) (ds ++ rest) gs k = Some r.
Proof.
  unfold isNumber. intros [Hne Hds]%andb_true_iff.
  apply plus_run; [|exact Hds].
  apply negb_true_iff, String.eqb_neq in Hne. exact Hne.
Qed.
End MatcherLemmas.


Section RunEquations.
Context {R : Type}.
Implicit Types (k : string -> RegExp.Groups -> option R).

Lemma run_Seq r1 r2 s gs k :
  RegExp.run (RegExp.Seq r1 r2) s gs k
  = RegExp.run r1 s gs (fun s' gs' => RegExp.run r2 s' gs' k).
Proof. reflexivity. Qed.

Lemma run_Named g r1 s gs k :
  RegExp.run (RegExp.Named g r1) s gs k
  = RegExp.run r1 s gs (fun s' gs' =>
      k s' (RegExp.setGroup g
              (String.substring 0 (String.length s - String.length s') s) gs')).
Proof. reflexivity. Qed.

Lemma run_Lit c s gs k :
  RegExp.run (RegExp.Lit c) (String c s) gs k = k s gs.
Proof. simpl. now rewrite Ascii.eqb_refl. Qed.

Lemma run_Lit_other c c' s gs k :
  c <> c' -> RegExp.run (RegExp.Lit c) (String c' s) gs k = None.
Proof. intros Hc. simpl. now apply Ascii.eqb_neq in Hc as ->. Qed.

Lemma run_Opt_taken r1 s gs k x :
  RegExp.run r1 s gs k = Some x -> RegExp.run (RegExp.Opt r1) s gs k = Some x.
Proof. intros H. simpl. now rewrite H. Qed.

Lemma run_Opt_skipped r1 s gs k :
  RegExp.run r1 s gs k = None -> RegExp.run (RegExp.Opt r1) s gs k = k s gs.
Proof. intros H. simpl. now rewrite H. Qed.

Lemma run_Eos gs k : RegExp.run RegExp.Eos "" gs k = k "" gs.
Proof. reflexivity. Qed.
End RunEquations.

(** The contents of the version group on [major.minor.patch] followed by
    something that is neither a digit nor a dash. *)
Lemma semver_run {R} major minor patch rest gs
    (k : string -> RegExp.Groups -> option R) r :
  isNumber major = true -> isNumber minor = true -> isNumber patch = true ->
  match rest with
  | EmptyString => True
  | String c _ => RegExp.inClass RegExp.Digit c = false /\ c <> "-"%char
  end ->
  k rest gs = Some r ->
  RegExp.run VersionRegexParts.semver (plainVersion major minor patch ++ rest) gs k = Some r.
Proof.
  intros Hmajor Hminor Hpatch Hrest Hk.
  unfold VersionRegexParts.semver, plainVersion. rewrite !append_assoc.
  rewrite run_Seq. apply number_run; [exact Hmajor|reflexivity|].
  rewrite append_cons, append_nil_l, run_Seq, run_Lit, run_Seq.
  apply number_run; [exact Hminor|reflexivity|].
  rewrite append_cons, append_nil_l, run_Seq, run_Lit, run_Seq.
  apply number_run; [exact Hpatch| |].
  - destruct rest; [exact I|apply Hrest].
  - rewrite run_Opt_skipped; [exact Hk|].
    rewrite run_Seq. destruct rest as [|c rest]; [reflexivity|].
    apply run_Lit_other. intros Heq. now apply (proj2 Hrest).
Qed.

(** An entry [major.minor.patch@platform] is read as that version and that
    platform. *)
Lemma exec_plain_platform major minor patch p :
  isNumber major = true -> isNumber minor = true -> isNumber patch = true ->
  p <> "" -> allInClass RegExp.Dot p = true ->
  RegExp.exec VersionRegex (plainVersion major minor patch ++ "@" ++ p)
  = Some {| RegExp.g_version := Some (plainVersion major minor patch);
            RegExp.g_platform := Some p |}.
Proof.
  intros Hmajor Hminor Hpatch Hne Hp.
  unfold RegExp.exec, VersionRegex.
  rewrite run_Seq, run_Named.
  apply semver_run; try assumption.
  - rewrite append_cons. split; [reflexivity|discriminate].
  - rewrite substring_consumed, run_Seq.
    unfold VersionRegexParts.platformSuffix.
    apply run_Opt_taken.
    rewrite append_cons, append_nil_l, run_Seq, run_Lit, run_Named.
    rewrite <- (append_nil_r p) at 1.
    apply plus_run; [exact Hne|exact Hp|exact I|].
    rewrite run_Eos. simpl. now rewrite Nat.sub_0_r, substring_all.
Qed.

(** ** What a match tells about the entry *)

Section MatcherInversion.
Context {R : Type}.

Lemma star_inv cls s (k : string -> option R) x :
  RegExp.star cls s k = Some x ->
  exists s', k s' = Some x /\ (String.length s' <= String.length s)%nat.
Proof.
  induction s as [|c s IH]; simpl.
  - intros Hk. exists "". split; [exact Hk|reflexivity].
  - destruct (RegExp.inClass cls c).
    + destruct (RegExp.star cls s k) as [y|] eqn:Hstar.
      * intros [= ->]. destruct (IH eq_refl) as (s' & Hk & Hlen).
        exists s'. split; [exact Hk|lia].
      * intros Hk. exists (String c s). split; [exact Hk|reflexivity].
    + intros Hk. exists (String c s). split; [exact Hk|reflexivity].
Qed.

Lemma substring_nonempty n s :
  (0 < n)%nat -> (0 < String.length s)%nat -> String.substring 0 n s <> "".
Proof.
  destruct n as [|n]; [lia|]. destruct s as [|c s]; simpl; [lia|discriminate].
Qed.

Lemma setGroup_nonEmpty g sub gs :
  sub <> "" -> nonEmptyGroups gs -> nonEmptyGroups (RegExp.setGroup g sub gs).
Proof.
  intros Hsub [Hv Hp]. destruct g; split; simpl; congruence.
Qed.

(** A successful run has called its continuation on a suffix of the
    input, shorter when the pattern consumes, with groups that are not
    empty. *)
Lemma run_inv r :
  groupsConsume r = true ->
  forall s gs (k : string -> RegExp.Groups -> option R) x,
    nonEmptyGroups gs ->
    RegExp.run r s gs k = Some x ->
    exists s' gs',
      k s' gs' = Some x
      /\ (String.length s' <= String.length s)%nat
      /\ (consumes r = true -> (String.length s' < String.length s)%nat)
      /\ nonEmptyGroups gs'.
Proof.
  induction r as [c|cls|cls|cls|r1 IH1 r2 IH2|r1 IH1|g r1 IH1|];
    simpl; intros Hwf s gs k x Hgs Hrun.
  - destruct s as [|c' s]; [discriminate|].
    destruct (Ascii.eqb c c'); [|discriminate].
    exists s, gs. simpl. split; [exact Hrun|]. split; [lia|]. split; [lia|exact Hgs].
  - destruct s as [|c' s]; [discriminate|].
    destruct (RegExp.inClass cls c'); [|discriminate].
    exists s, gs. simpl. split; [exact Hrun|]. split; [lia|]. split; [lia|exact Hgs].
  - apply star_inv in Hrun as (s' & Hk & Hlen).
    exists s', gs. split; [exact Hk|]. split; [exact Hlen|].
    split; [discriminate|exact Hgs].
  - destruct s as [|c' s]; [discriminate|].
    destruct (RegExp.inClass cls c'); [|discriminate].
    apply star_inv in Hrun as (s' & Hk & Hlen).
    exists s', gs. simpl. split; [exact Hk|]. split; [lia|]. split; [lia|exact Hgs].
  - apply andb_true_iff in Hwf as [Hwf1 Hwf2].
    apply (IH1 Hwf1) in Hrun as (s1 & gs1 & Hrun & Hlen1 & Hlt1 & Hgs1);
      [|exact Hgs].
    apply (IH2 Hwf2) in Hrun as (s2 & gs2 & Hk & Hlen2 & Hlt2 & Hgs2);
      [|exact Hgs1].
    exists s2, gs2. split; [exact Hk|]. split; [lia|]. split; [|exact Hgs2].
    intros [H1|H2]%orb_true_iff; [specialize (Hlt1 H1)|specialize (Hlt2 H2)]; lia.
  - destruct (RegExp.run r1 s gs k) as [y|] eqn:Hr1.
    + injection Hrun as ->.
      apply (IH1 Hwf) in Hr1 as (s1 & gs1 & Hk & Hlen1 & _ & Hgs1); [|exact Hgs].
      exists s1, gs1. split; [exact Hk|]. split; [exact Hlen1|].
      split; [discriminate|exact Hgs1].
    + exists s, gs. split; [exact Hrun|]. split; [lia|].
      split; [discriminate|exact Hgs].
  - apply andb_true_iff in Hwf as [Hcons Hwf].
    apply (IH1 Hwf) in Hrun as (s1 & gs1 & Hk & Hlen1 & Hlt1 & Hgs1); [|exact Hgs].
    specialize (Hlt1 Hcons).
    eexists s1, _. split; [exact Hk|]. split; [lia|]. split; [intros _; lia|].
    apply setGroup_nonEmpty; [|exact Hgs1].
    apply substring_nonempty; lia.
  - destruct s as [|c' s]; [|discriminate].
    exists "", gs. split; [exact Hrun|]. split; [lia|].
    split; [discriminate|exact Hgs].
Qed.
End MatcherInversion.

(** The groups of a match of [VersionRegex] are never empty strings. *)
Lemma exec_nonEmptyGroups entry groups :
  RegExp.exec VersionRegex entry = Some groups -> nonEmptyGroups groups.
Proof.
  unfold RegExp.exec. intros Hrun.
  apply run_inv in Hrun as (s' & gs' & [= <-] & _ & _ & Hgs);
    [exact Hgs|reflexivity|split; discriminate].
Qed.

(** ** What the pattern accepts *)

Section MatcherSoundness.
Context {R : Type}.

Lemma star_sound cls s (k : string -> option R) x :
  RegExp.star cls s k = Some x ->
  exists w rest, s = w ++ rest /\ allInClass cls w = true /\ k rest = Some x.
Proof.
  induction s as [|c s IH]; simpl.
  - intros Hk. now exists "", "".
  - destruct (RegExp.inClass cls c) eqn:Hc.
    + destruct (RegExp.star cls s k) as [y|] eqn:Hstar.
      * intros [= ->]. destruct (IH eq_refl) as (w & rest & -> & Hw & Hk).
        exists (String c w), rest. rewrite append_cons. simpl. now rewrite Hc, Hw.
      * intros Hk. now exists "", (String c s).
    + intros Hk. now exists "", (String c s).
Qed.

(** A successful run has matched a prefix of the input, as the pattern
    describes it, and called its continuation on what follows. *)
Lemma run_sound r :
  forall s gs (k : string -> RegExp.Groups -> option R) x,
    RegExp.run r s gs k = Some x ->
    exists w rest gs',
      s = w ++ rest /\ matched r w rest gs gs' /\ k rest gs' = Some x.
Proof.
  induction r as [c|cls|cls|cls|r1 IH1 r2 IH2|r1 IH1|g r1 IH1|];
    simpl; intros s gs k x Hrun.
  - destruct s as [|c' s]; [discriminate|].
    destruct (Ascii.eqb_spec c c') as [<-|]; [|discriminate].
    now exists (String c ""), s, gs.
  - destruct s as [|c' s]; [discriminate|].
    destruct (RegExp.inClass cls c') eqn:Hc; [|discriminate].
    exists (String c' ""), s, gs. repeat split; [|exact Hrun]. now exists c'.
  - apply star_sound in Hrun as (w & rest & -> & Hw & Hk).
    now exists w, rest, gs.
  - destruct s as [|c' s]; [discriminate|].
    destruct (RegExp.inClass cls c') eqn:Hc; [|discriminate].
    apply star_sound in Hrun as (w & rest & -> & Hw & Hk).
    exists (String c' w), rest, gs. rewrite append_cons. simpl. rewrite Hc, Hw.
    repeat split; [discriminate|exact Hk].
  - apply IH1 in Hrun as (w1 & rest1 & gs1 & -> & Hm1 & Hrun).
    apply IH2 in Hrun as (w2 & rest & gs2 & -> & Hm2 & Hk).
    exists (w1 ++ w2), rest, gs2. rewrite append_assoc.
    split; [reflexivity|]. split; [|exact Hk].
    now exists w1, w2, gs1.
  - destruct (RegExp.run r1 s gs k) as [y|] eqn:Hr1.
    + injection Hrun as ->.
      apply IH1 in Hr1 as (w & rest & gs' & -> & Hm & Hk).
      exists w, rest, gs'. auto.
    + exists "", s, gs. auto.
  - apply IH1 in Hrun as (w & rest & gs1 & -> & Hm & Hk).
    rewrite substring_consumed in Hk.
    exists w, rest, (RegExp.setGroup g w gs1).
    split; [reflexivity|]. split; [|exact Hk]. now exists gs1.
  - destruct s as [|c' s]; [|discriminate].
    now exists "", "", gs.
Qed.
End MatcherSoundness.

Lemma plus_matched_number w rest gs gs' :
  matched (RegExp.Plus RegExp.Digit) w rest gs gs' -> isNumber w = true /\ gs' = gs.
Proof.
  simpl. intros (Hne & Hw & ->). split; [|reflexivity].
  unfold isNumber. rewrite Hw, andb_true_r.
  now apply negb_true_iff, String.eqb_neq.
Qed.

(** What the contents of the version group match: three numbers with dots
    between them, then nothing or a pre-release suffix; no group is set. *)
Lemma semver_matched w rest gs gs' :
  matched VersionRegexParts.semver w rest gs gs' ->
  gs' = gs
  /\ exists major minor patch suffix,
       w = plainVersion major minor patch ++ suffix
       /\ isNumber major = true /\ isNumber minor = true /\ isNumber patch = true
       /\ isPrereleaseSuffix suffix.
Proof.
  unfold VersionRegexParts.semver.
  intros (major & w1 & gs1 & -> & Hmajor & (dot1 & w2 & gs2 & -> & Hdot1 &
          (minor & w3 & gs3 & -> & Hminor & (dot2 & w4 & gs4 & -> & Hdot2 &
          (patch & suffix & gs5 & -> & Hpatch & Hsuffix))))).
  apply plus_matched_number in Hmajor as [Hmajor ->].
  apply plus_matched_number in Hminor as [Hminor ->].
  apply plus_matched_number in Hpatch as [Hpatch ->].
  destruct Hdot1 as [-> ->], Hdot2 as [-> ->].
  assert (Hgs : gs' = gs /\ isPrereleaseSuffix suffix).
  { destruct Hsuffix as [[-> ->]|(dash & tag & gs6 & -> & [-> ->] & [Htag ->])].
    - split; [reflexivity|now left].
    - split; [reflexivity|]. right. now exists tag. }
  destruct Hgs as [-> Hpre]. split; [reflexivity|].
  exists major, minor, patch, suffix.
  unfold plainVersion. rewrite !append_assoc. auto.
Qed.

(** What the optional platform suffix matches. *)
Lemma platformSuffix_matched w rest gs gs' :
  matched VersionRegexParts.platformSuffix w rest gs gs' ->
  (w = "" /\ gs' = gs)
  \/ exists p, w = "@" ++ p /\ p <> "" /\ allInClass RegExp.Dot p = true
               /\ gs' = RegExp.setGroup RegExp.platform p gs.
Proof.
  unfold VersionRegexParts.platformSuffix.
  intros [[-> ->]|(at_ & p & gs1 & -> & [-> ->] & (gs2 & (Hne & Hp & ->) & ->))].
  - now left.
  - right. now exists p.
Qed.

(** What a match tells: the groups spell the entry, the version has the
    shape of a version, and a platform is not empty and holds no line
    terminator. *)
Lemma exec_shape entry groups :
  RegExp.exec VersionRegex entry = Some groups ->
  exists v major minor patch suffix,
    RegExp.g_version groups = Some v
    /\ v = plainVersion major minor patch ++ suffix
    /\ isNumber major = true /\ isNumber minor = true /\ isNumber patch = true
    /\ isPrereleaseSuffix suffix
    /\ match RegExp.g_platform groups with
       | Some p => entry = v ++ "@" ++ p /\ p <> "" /\ allInClass RegExp.Dot p = true
       | None => entry = v
       end.
Proof.
  unfold RegExp.exec. intros Hrun.
  apply run_sound in Hrun as (w & rest & gs' & -> & Hm & [= <-]).
  unfold VersionRegex in Hm.
  destruct Hm as (v & w2 & gs1 & -> & (gs0 & Hsemver & ->) &
                  (w3 & w4 & gs2 & -> & Hplatform & (-> & -> & ->))).
  apply semver_matched in Hsemver as (-> & major & minor & patch & suffix & -> & Hnumbers).
  destruct Hnumbers as (Hmajor & Hminor & Hpatch & Hsuffix).
  apply platformSuffix_matched in Hplatform as [[-> ->]|(p & -> & Hne & Hp & ->)];
    exists (plainVersion major minor patch ++ suffix), major, minor, patch, suffix;
    (split; [reflexivity|]); (split; [reflexivity|]);
    repeat (split; [assumption|]); simpl; rewrite !append_nil_r; auto.
Qed.

(** The contents of the version group on [major.minor.patch-tag]: the
    greedy tag runs to the end of the input. *)
Lemma semver_run_prerelease {R} major minor patch tag gs
    (k : string -> RegExp.Groups -> option R) r :
  isNumber major = true -> isNumber minor = true -> isNumber patch = true ->
  allInClass RegExp.Dot tag = true ->
  k "" gs = Some r ->
  RegExp.run VersionRegexParts.semver (plainVersion major minor patch ++ "-" ++ tag) gs k
  = Some r.
Proof.
  intros Hmajor Hminor Hpatch Htag Hk.
  unfold VersionRegexParts.semver, plainVersion. rewrite !append_assoc.
  rewrite run_Seq. apply number_run; [exact Hmajor|reflexivity|].
  rewrite append_cons, append_nil_l, run_Seq, run_Lit, run_Seq.
  apply number_run; [exact Hminor|reflexivity|].
  rewrite append_cons, append_nil_l, run_Seq, run_Lit, run_Seq.
  apply number_run; [exact Hpatch|reflexivity|].
  apply run_Opt_taken.
  rewrite append_cons, append_nil_l, run_Seq, run_Lit.
  rewrite <- (append_nil_r tag). simpl RegExp.run.
  now apply star_run.
Qed.

Lemma exec_plain major minor patch :
  isNumber major = true -> isNumber minor = true -> isNumber patch = true ->
  RegExp.exec VersionRegex (plainVersion major minor patch)
  = Some {| RegExp.g_version := Some (plainVersion major minor patch);
            RegExp.g_platform := None |}.
Proof.
  intros Hmajor Hminor Hpatch.
  unfold RegExp.exec, VersionRegex.
  rewrite run_Seq, run_Named.
  rewrite <- (append_nil_r (plainVersion major minor patch)) at 1.
  apply semver_run; try assumption; [exact I|].
  change (String.length "") with 0%nat.
  rewrite Nat.sub_0_r, substring_all.
  reflexivity.
Qed.

Lemma exec_prerelease major minor patch tag :
  isNumber major = true -> isNumber minor = true -> isNumber patch = true ->
  allInClass RegExp.Dot tag = true ->
  RegExp.exec VersionRegex (plainVersion major minor patch ++ "-" ++ tag)
  = Some {| RegExp.g_version := Some (plainVersion major minor patch ++ "-" ++ tag);
            RegExp.g_platform := None |}.
Proof.
  intros Hmajor Hminor Hpatch Htag.
  unfold RegExp.exec, VersionRegex.
  rewrite run_Seq, run_Named.
  apply semver_run_prerelease; try assumption.
  rewrite Nat.sub_0_r, substring_all.
  reflexivity.
Qed.

Lemma allInClass_app cls (s t : string) :
  allInClass cls (s ++ t) = allInClass cls s && allInClass cls t.
Proof.
  induction s as [|c s IH]; [reflexivity|].
  rewrite append_cons. simpl. now rewrite IH, andb_assoc.
Qed.


Lemma number_leading_digit s : isNumber s = true -> ~ noLeadingDigit s.
Proof.
  unfold isNumber. destruct s as [|c s]; simpl; [discriminate|].
  intros [Hc _]%andb_true_iff. congruence.
Qed.

Lemma plainVersion_leading_digit major minor patch suffix :
  isNumber major = true -> ~ noLeadingDigit (plainVersion major minor patch ++ suffix).
Proof.
  intros Hmajor. apply number_leading_digit in Hmajor.
  unfold plainVersion. destruct major as [|c major]; [now destruct Hmajor|].
  rewrite !append_cons. exact Hmajor.
Qed.


Lemma allChars_app test (s t : string) :
  allChars test (s ++ t) = allChars test s && allChars test t.
Proof.
  induction s as [|c s IH]; [reflexivity|].
  rewrite append_cons. cbn [allChars]. now rewrite IH, andb_assoc.
Qed.

Lemma number_digits_and_dots s : isNumber s = true -> allChars isDigitOrDot s = true.
Proof.
  unfold isNumber. intros [_ Hs]%andb_true_iff.
  induction s as [|c s IH]; [reflexivity|].
  cbn [allInClass] in Hs. apply andb_true_iff in Hs as [Hc Hs].
  cbn [allChars]. unfold isDigitOrDot at 1. now rewrite Hc, IH.
Qed.

Lemma plainVersion_digits_and_dots major minor patch :
  isNumber major = true -> isNumber minor = true -> isNumber patch = true ->
  allChars isDigitOrDot (plainVersion major minor patch) = true.
Proof.
  intros Hmajor Hminor Hpatch. unfold plainVersion.
  rewrite !allChars_app.
  rewrite (number_digits_and_dots major Hmajor), (number_digits_and_dots minor Hminor),
    (number_digits_and_dots patch Hpatch).
  reflexivity.
Qed.

(** A version without pre-release suffix is not spelled like one with a
    pre-release suffix. *)
Lemma plainVersion_no_suffix major minor patch plain suffix :
  isNumber major = true -> isNumber minor = true -> isNumber patch = true ->
  isPrereleaseSuffix suffix ->
  plain ++ suffix = plainVersion major minor patch ->
  suffix = "".
Proof.
  intros Hmajor Hminor Hpatch [->|(tag & -> & _)] Heq; [reflexivity|].
  exfalso.
  pose proof (plainVersion_digits_and_dots _ _ _ Hmajor Hminor Hpatch) as Hchars.
  rewrite <- Heq, !allChars_app in Hchars.
  change (allChars isDigitOrDot "-") with false in Hchars.
  rewrite andb_false_l, andb_false_r in Hchars. discriminate.
Qed.

(** ** The policy evaluation *)

Lemma isAllowed_not_loaded this ext :
  allowedExtensions this = None -> isAllowed this ext = Returns Allowed.
Proof. intros Hthis. now enter_isAllowed. Qed.

Lemma get_own {V} (o : gmap string V) key v :
  o !! key = Some v -> Js.get o key = Js.Own v.
Proof. unfold Js.get. now intros ->. Qed.

Lemma get_absent {V} (o : gmap string V) key :
  o !! key = None -> Js.inheritedMember key = false -> Js.get o key = Js.Absent.
Proof. unfold Js.get. now intros -> ->. Qed.

Lemma get_inherited {V} (o : gmap string V) key :
  o !! key = None -> Js.inheritedMember key = true -> Js.get o key = Js.Inherited.
Proof. unfold Js.get. now intros -> ->. Qed.

Lemma get_Own_inv {V} (o : gmap string V) key v :
  Js.get o key = Js.Own v -> o !! key = Some v.
Proof.
  unfold Js.get. destruct (o !! key); [now intros [= ->]|].
  now destruct (Js.inheritedMember key).
Qed.

Lemma get_Absent_inv {V} (o : gmap string V) key :
  Js.get o key = Js.Absent -> o !! key = None /\ Js.inheritedMember key = false.
Proof.
  unfold Js.get. destruct (o !! key); [discriminate|].
  now destruct (Js.inheritedMember key).
Qed.

Lemma get_Inherited_inv {V} (o : gmap string V) key :
  Js.get o key = Js.Inherited -> o !! key = None /\ Js.inheritedMember key = true.
Proof.
  unfold Js.get. destruct (o !! key); [discriminate|].
  now destruct (Js.inheritedMember key).
Qed.

Lemma isTrue_lookup (allowed : gmap string PolicyValue) key :
  Js.nullish (isTrue <$> allowed !! key) false = true <-> allowed !! key = Some (VBool true).
Proof.
  destruct (allowed !! key) as [[[|]| |]|]; simpl; split; congruence.
Qed.

Lemma wildcardIsTrue_lookup (allowed : gmap string PolicyValue) :
  wildcardIsTrue allowed = true <-> allowed !! "*" = Some (VBool true).
Proof.
  unfold wildcardIsTrue, Js.get.
  destruct (allowed !! "*") as [[[|]| |]|]; simpl; split; congruence.
Qed.

(** C3. A configuration that consists of the single entry ["*": true] is
    normalized to no table at all, so under it every extension is permitted,
    as it is when the setting is absent. *)
Theorem wildcard_only_is_no_policy mappings ext :
  getAllowedExtensionsValue (CObject [("*", VBool true)]) = None
  /\ isAllowed (constructor mappings (CObject [("*", VBool true)])) ext = Returns Allowed
  /\ isAllowed (constructor mappings (CObject [("*", VBool true)])) ext
     = isAllowed (constructor mappings CUndefined) ext.
Proof.
  assert (Hnone : getAllowedExtensionsValue (CObject [("*", VBool true)]) = None)
    by reflexivity.
  split; [exact Hnone|].
  split; [now apply isAllowed_not_loaded|].
  now rewrite !isAllowed_not_loaded.
Qed.

(** C4. When the configuration value is absent, is not an object, or is an
    array, no table is loaded; and with no table loaded every extension, of
    any of the three shapes, is permitted. *)
Theorem no_policy_permits :
  (forall value,
      value = CUndefined \/ isObject value = false \/ Array_isArray value = true ->
      getAllowedExtensionsValue value = None)
  /\ (forall this ext, allowedExtensions this = None -> isAllowed this ext = Returns Allowed)
  /\ (forall mappings value ext,
      value = CUndefined \/ isObject value = false \/ Array_isArray value = true ->
      isAllowed (constructor mappings value) ext = Returns Allowed).
Proof.
  assert (Hload : forall value,
      value = CUndefined \/ isObject value = false \/ Array_isArray value = true ->
      getAllowedExtensionsValue value = None).
  { intros value [-> | [Hobj | Harr]]; [reflexivity| |].
    - unfold getAllowedExtensionsValue. now rewrite Hobj.
    - unfold getAllowedExtensionsValue. now rewrite Harr, orb_true_r. }
  split; [exact Hload|].
  split; [exact isAllowed_not_loaded|].
  intros mappings value ext Hvalue.
  apply isAllowed_not_loaded. simpl. now apply Hload.
Qed.

Lemma no_policy_permits_witness :
  getAllowedExtensionsValue (CArray [VBool false]) = None
  /\ isAllowed (constructor [("Old", "New")] (CString "release"))
               (minimal "pub.ext" (Some "1.2.3") (Some true) None) = Returns Allowed.
Proof.
  destruct no_policy_permits as (Hload & _ & Hconfig).
  split.
  - apply Hload. right. right. reflexivity.
  - apply Hconfig. right. left. reflexivity.
Defined.

(** C6. When the entry of the id is the string "release", a pre-release is
    denied with the reason for pre-releases of the extension, and anything
    else is permitted. *)
Theorem release_gates_prerelease this allowed ext :
  allowedExtensions this = Some allowed ->
  allowed !! Locals.id (locals ext) = Some (VString "release") ->
  (Locals.prerelease (locals ext) = true ->
     isAllowed this ext = Returns (Denied extension_prerelease_not_allowed))
  /\ (Locals.prerelease (locals ext) = false -> isAllowed this ext = Returns Allowed).
Proof.
  intros Hthis Hid. split; intros Hpre; enter_isAllowed; simpl; rewrite Hpre.
  - reflexivity.
  - now rewrite andb_false_r.
Qed.

Lemma release_gates_prerelease_witness :
  isAllowed (constructor [] (CObject [("pub.ext", VString "release")]))
            (minimal "pub.ext" None (Some true) None)
  = Returns (Denied extension_prerelease_not_allowed)
  /\ isAllowed (constructor [] (CObject [("pub.ext", VString "release")]))
               (minimal "pub.ext" None (Some false) None)
     = Returns Allowed.
Proof.
  split.
  - apply (release_gates_prerelease _
             (Object_fromEntries [("pub.ext", VString "release")]));
      [vm_compute; reflexivity | vm_compute; reflexivity | reflexivity].
  - apply (release_gates_prerelease _
             (Object_fromEntries [("pub.ext", VString "release")]));
      [vm_compute; reflexivity | vm_compute; reflexivity | reflexivity].
Defined.

(** C2. When the lowercase id is a key of the table, its entry decides alone:
    the verdict is the same under any other table with that entry and any
    alias table; an entry that is not [false], not "release" against a
    pre-release, and not a version list without a match for a definite
    version, permits; and with the table ["pub.ext": false, "pub": true] the
    extension pub.ext of unspecified version is denied. *)
Theorem id_rule_decides :
  (forall this this' allowed allowed' ext v,
      allowedExtensions this = Some allowed ->
      allowedExtensions this' = Some allowed' ->
      allowed !! Locals.id (locals ext) = Some v ->
      allowed' !! Locals.id (locals ext) = Some v ->
      isAllowed this ext = isAllowed this' ext)
  /\ (forall this allowed ext v,
      allowedExtensions this = Some allowed ->
      allowed !! Locals.id (locals ext) = Some v ->
      v <> VBool false ->
      ~ (v = VString "release" /\ Locals.prerelease (locals ext) = true) ->
      ~ (exists vs, v = VArray vs
                    /\ Locals.version (locals ext) <> "*"
                    /\ forall entry, In entry vs ->
                         versionMatches (Locals.version (locals ext))
                                        (Locals.targetPlatform (locals ext)) entry = false) ->
      isAllowed this ext = Returns Allowed)
  /\ isAllowed (constructor [] (CObject [("pub.ext", VBool false); ("pub", VBool true)]))
               (minimal "pub.ext" (Some "*") None None)
     = Returns (Denied specific_extension_not_allowed).
Proof.
  split; [|split].
  - intros this this' allowed allowed' ext v Hthis Hthis' Hid Hid'.
    now enter_isAllowed.
  - intros this allowed ext v Hthis Hid Hfalse Hrelease Hlist.
    enter_isAllowed.
    destruct v as [[|]|s|vs]; simpl.
    + reflexivity.
    + congruence.
    + rewrite andb_false_r. simpl.
      destruct (String.eqb_spec s "release") as [->|_]; [|reflexivity].
      destruct (Locals.prerelease (locals ext)); [|reflexivity].
      exfalso. now apply Hrelease.
    + destruct (String.eqb_spec (Locals.version (locals ext)) "*") as [|Hversion];
        [reflexivity|].
      rewrite andb_true_r. simpl.
      destruct (existsb _ vs) eqn:Hsome; [reflexivity|].
      exfalso. apply Hlist. exists vs. repeat split; [exact Hversion|].
      intros entry Hentry.
      destruct (versionMatches _ _ entry) eqn:Hmatch; [|reflexivity].
      assert (existsb (versionMatches (Locals.version (locals ext))
                         (Locals.targetPlatform (locals ext))) vs = true)
        by (apply existsb_exists; eauto).
      congruence.
  - vm_compute. reflexivity.
Qed.

Lemma id_rule_decides_witness :
  isAllowed (constructor [] (CObject [("pub.ext", VString "release"); ("pub", VBool false)]))
            (minimal "Pub.Ext" (Some "1.0.0") None None)
  = isAllowed (constructor [("pub", "other")]
                           (CObject [("pub.ext", VString "release"); ("*", VBool true)]))
              (minimal "Pub.Ext" (Some "1.0.0") None None)
  /\ isAllowed (constructor [] (CObject [("pub.ext", VString "release"); ("pub", VBool false)]))
               (minimal "Pub.Ext" (Some "1.0.0") None None)
     = Returns Allowed.
Proof.
  destruct id_rule_decides as (Hsame & Hpermit & _).
  split.
  - apply (Hsame _ _
             (Object_fromEntries [("pub.ext", VString "release"); ("pub", VBool false)])
             (Object_fromEntries [("pub.ext", VString "release"); ("*", VBool true)])
             _ (VString "release")); vm_compute; reflexivity.
  - apply (Hpermit _
             (Object_fromEntries [("pub.ext", VString "release"); ("pub", VBool false)])
             _ (VString "release")).
    + vm_compute; reflexivity.
    + vm_compute; reflexivity.
    + discriminate.
    + intros [_ Hpre]. discriminate Hpre.
    + intros (vs & Hvs & _). discriminate Hvs.
Defined.

(** ** Version lists *)

(** The callback of [some], in terms of what the pattern reads off the
    entry: the versions are equal, and the platform is compared only when
    the target platform is not universal and the entry has a suffix. *)
Lemma versionMatches_spec version targetPlatform entry :
  versionMatches version targetPlatform entry = true
  <-> entryVersion entry = Some version
      /\ (targetPlatform = TargetPlatformEnum.UNIVERSAL
          \/ entryPlatform entry = None
          \/ entryPlatform entry = Some targetPlatform).
Proof.
  unfold versionMatches, entryVersion, entryPlatform.
  destruct (RegExp.exec VersionRegex entry) as [[v p]|] eqn:Hexec; simpl;
    [|split; [discriminate|intros [[=] _]]].
  apply exec_nonEmptyGroups in Hexec as [_ Hp]. simpl in Hp.
  destruct v as [v|]; simpl; [|split; [discriminate|intros [[=] _]]].
  destruct (String.eqb_spec v version) as [->|Hv]; simpl;
    [|split; [discriminate|intros [[= ?] _]; contradiction]].
  destruct (String.eqb_spec targetPlatform TargetPlatformEnum.UNIVERSAL) as [->|Htp];
    simpl; [split; auto|].
  destruct p as [p|]; simpl; [|split; auto].
  destruct (String.eqb_spec p "") as [->|_]; [congruence|]. simpl.
  destruct (String.eqb_spec p targetPlatform) as [->|Hne]; simpl; [split; auto|].
  split; [discriminate|].
  intros [_ [?|[[=]|[= ?]]]]; contradiction.
Qed.

Lemma some_versionMatches vs version targetPlatform :
  some (VArray vs) (versionMatches version targetPlatform) = true
  <-> exists entry, In entry vs /\ versionMatches version targetPlatform entry = true.
Proof. simpl. apply existsb_exists. Qed.

(** The verdict of a version list for a definite version. *)
Lemma isAllowed_version_list this allowed ext vs :
  allowedExtensions this = Some allowed ->
  allowed !! Locals.id (locals ext) = Some (VArray vs) ->
  Locals.version (locals ext) <> "*" ->
  isAllowed this ext
  = if some (VArray vs) (versionMatches (Locals.version (locals ext))
                                        (Locals.targetPlatform (locals ext)))
    then Returns Allowed else Returns (Denied specific_extension_not_allowed).
Proof.
  intros Hthis Hid Hversion. enter_isAllowed. cbn [isBoolean isString isArray andb].
  apply String.eqb_neq in Hversion as ->. cbn [negb andb].
  now destruct (some _ _).
Qed.

(** An entry admits a version without pre-release suffix when it is that
    version, or that version with a platform suffix that is the target
    platform or is not compared. *)
Lemma versionMatches_plain major minor patch targetPlatform entry :
  isNumber major = true -> isNumber minor = true -> isNumber patch = true ->
  versionMatches (plainVersion major minor patch) targetPlatform entry = true
  <-> entry = plainVersion major minor patch
      \/ exists p, entry = plainVersion major minor patch ++ "@" ++ p
                   /\ isPlatformSuffix p
                   /\ (targetPlatform = TargetPlatformEnum.UNIVERSAL \/ p = targetPlatform).
Proof.
  intros Hmajor Hminor Hpatch. rewrite versionMatches_spec. split.
  - unfold entryVersion, entryPlatform.
    destruct (RegExp.exec VersionRegex entry) as [groups|] eqn:Hexec; [|intros [[=] _]].
    apply exec_shape in Hexec
      as (v & major' & minor' & patch' & suffix & Hgv & -> & _ & _ & _ & Hsuffix & Hentry).
    simpl. rewrite Hgv. intros [[= Hv] Hplatform].
    pose proof (plainVersion_no_suffix _ _ _ _ _ Hmajor Hminor Hpatch Hsuffix Hv) as ->.
    rewrite Hv in Hentry.
    destruct (RegExp.g_platform groups) as [p|].
    + destruct Hentry as (-> & Hne & Hp). right. exists p.
      split; [reflexivity|]. split; [now split|].
      destruct Hplatform as [?|[[=]|[= ->]]]; auto.
    + now left.
  - unfold entryVersion, entryPlatform.
    intros [->|(p & -> & [Hne Hp] & Hplatform)].
    + rewrite (exec_plain _ _ _ Hmajor Hminor Hpatch). simpl. auto.
    + rewrite (exec_plain_platform _ _ _ _ Hmajor Hminor Hpatch Hne Hp). simpl.
      split; [reflexivity|]. destruct Hplatform as [->| ->]; auto.
Qed.

Lemma plainVersion_not_star major minor patch :
  isNumber major = true -> plainVersion major minor patch <> "*".
Proof.
  intros Hmajor Hstar.
  apply (plainVersion_leading_digit major minor patch "" Hmajor).
  rewrite append_nil_r, Hstar. reflexivity.
Qed.

(** C1, as the code has it.  For an extension whose target platform is
    universal the platform suffix of an entry is not compared: when the
    entry of the id is a version list and the version is a plain
    [major.minor.patch], the extension is permitted if some entry is that
    version, alone or followed by "@" and a platform suffix, whatever the
    suffix, and denied as not in the allowed list otherwise.  Versions with a
    pre-release suffix are left out of the statement. *)
Theorem universal_ignores_platform_suffix this allowed ext vs major minor patch :
  allowedExtensions this = Some allowed ->
  Locals.targetPlatform (locals ext) = TargetPlatformEnum.UNIVERSAL ->
  allowed !! Locals.id (locals ext) = Some (VArray vs) ->
  isNumber major = true -> isNumber minor = true -> isNumber patch = true ->
  Locals.version (locals ext) = plainVersion major minor patch ->
  ((exists entry, In entry vs /\ entryOfVersion (plainVersion major minor patch) entry) ->
     isAllowed this ext = Returns Allowed)
  /\ (~ (exists entry, In entry vs /\ entryOfVersion (plainVersion major minor patch) entry) ->
     isAllowed this ext = Returns (Denied specific_extension_not_allowed)).
Proof.
  intros Hthis Htp Hid Hmajor Hminor Hpatch Hversion.
  assert (Hne : Locals.version (locals ext) <> "*")
    by (rewrite Hversion; now apply plainVersion_not_star).
  rewrite (isAllowed_version_list this allowed ext vs Hthis Hid Hne), Htp, Hversion.
  destruct (some _ _) eqn:Hsome.
  - split; [reflexivity|].
    intros Hnone. exfalso. apply Hnone.
    apply some_versionMatches in Hsome as (entry & Hin & Hmatch).
    exists entry. split; [exact Hin|].
    apply (versionMatches_plain _ _ _ _ _ Hmajor Hminor Hpatch) in Hmatch
      as [->|(p & -> & Hp & _)]; [now left|right; now exists p].
  - split; [|reflexivity].
    intros (entry & Hin & Hentry).
    assert (Htrue : some (VArray vs)
                      (versionMatches (plainVersion major minor patch)
                                      TargetPlatformEnum.UNIVERSAL) = true).
    { apply some_versionMatches. exists entry. split; [exact Hin|].
      apply (versionMatches_plain _ _ _ _ _ Hmajor Hminor Hpatch).
      destruct Hentry as [->|(p & -> & Hp)]; [now left|].
      right. exists p. auto. }
    congruence.
Qed.

Lemma universal_ignores_platform_suffix_witness :
  isAllowed (constructor [] (CObject [("pub.ext", VArray ["1.2.3@win32"; "1.2.4@linux"])]))
            (minimal "pub.ext" (Some "1.2.4") None None) = Returns Allowed.
Proof.
  apply (universal_ignores_platform_suffix _
           (Object_fromEntries [("pub.ext", VArray ["1.2.3@win32"; "1.2.4@linux"])])
           _ ["1.2.3@win32"; "1.2.4@linux"] "1" "2" "4");
    try (vm_compute; reflexivity).
  exists "1.2.4@linux". split; [simpl; auto|].
  right. exists "linux". split; [reflexivity|]. split; [discriminate|reflexivity].
Defined.

(** C1, as it is stated, fails: the target platform is universal, the entry
    of the id is a version list, the version is definite and the only entry
    carries the platform suffix win32, and the extension is permitted. *)
Lemma universal_matches_suffixed_entry :
  let this := constructor [] (CObject [("pub.ext", VArray ["1.2.3@win32"])]) in
  let ext := minimal "pub.ext" (Some "1.2.3") None (Some TargetPlatformEnum.UNIVERSAL) in
  Locals.targetPlatform (locals ext) = TargetPlatformEnum.UNIVERSAL
  /\ (exists allowed, allowedExtensions this = Some allowed
                      /\ allowed !! Locals.id (locals ext) = Some (VArray ["1.2.3@win32"]))
  /\ Locals.version (locals ext) <> "*"
  /\ (forall entry, In entry ["1.2.3@win32"] ->
        exists p, entryPlatform entry = Some p /\ p <> TargetPlatformEnum.UNIVERSAL)
  /\ isAllowed this ext = Returns Allowed
  /\ (forall reason, isAllowed this ext <> Returns (Denied reason)).
Proof.
  cbv zeta. split; [reflexivity|]. split.
  { eexists. split; [reflexivity|]. vm_compute; reflexivity. }
  split; [discriminate|]. split.
  { intros entry [<-|[]]. exists "win32". split; [vm_compute; reflexivity|discriminate]. }
  assert (Hverdict : isAllowed (constructor [] (CObject [("pub.ext", VArray ["1.2.3@win32"])]))
                       (minimal "pub.ext" (Some "1.2.3") None (Some TargetPlatformEnum.UNIVERSAL))
                     = Returns Allowed) by (vm_compute; reflexivity).
  split; [exact Hverdict|]. intros reason. rewrite Hverdict. discriminate.
Qed.

(** C5, as the code has it.  With a version list as the entry of the id:
    an extension whose version is a plain [major.minor.patch] and whose
    target platform is the platform suffix of an entry of that version is
    permitted; an extension of such a version on a target platform other
    than universal is denied when no entry is that version, alone or with
    that platform; and an extension of version "*" is permitted whatever the
    list holds.  The three are instanced on the list
    ["1.2.3@win32", "1.2.3@darwin"].  Versions with a pre-release suffix are
    left out of the statement. *)
Theorem version_list_rule :
  (forall this allowed ext vs major minor patch platform,
      allowedExtensions this = Some allowed ->
      allowed !! Locals.id (locals ext) = Some (VArray vs) ->
      isNumber major = true -> isNumber minor = true -> isNumber patch = true ->
      isPlatformSuffix platform ->
      In (plainVersion major minor patch ++ "@" ++ platform) vs ->
      Locals.version (locals ext) = plainVersion major minor patch ->
      Locals.targetPlatform (locals ext) = platform ->
      isAllowed this ext = Returns Allowed)
  /\ (forall this allowed ext vs major minor patch,
      allowedExtensions this = Some allowed ->
      allowed !! Locals.id (locals ext) = Some (VArray vs) ->
      isNumber major = true -> isNumber minor = true -> isNumber patch = true ->
      Locals.version (locals ext) = plainVersion major minor patch ->
      Locals.targetPlatform (locals ext) <> TargetPlatformEnum.UNIVERSAL ->
      (forall entry, In entry vs ->
         entry <> plainVersion major minor patch
         /\ entry <> plainVersion major minor patch ++ "@"
                       ++ Locals.targetPlatform (locals ext)) ->
      isAllowed this ext = Returns (Denied specific_extension_not_allowed))
  /\ (forall this allowed ext vs,
      allowedExtensions this = Some allowed ->
      allowed !! Locals.id (locals ext) = Some (VArray vs) ->
      Locals.version (locals ext) = "*" ->
      isAllowed this ext = Returns Allowed)
  /\ (let this := constructor [] (CObject [("pub.ext", VArray ["1.2.3@win32"; "1.2.3@darwin"])]) in
      isAllowed this (minimal "pub.ext" (Some "1.2.3") None (Some "win32")) = Returns Allowed
      /\ isAllowed this (minimal "pub.ext" (Some "1.2.3") None (Some "linux"))
         = Returns (Denied specific_extension_not_allowed)
      /\ isAllowed this (minimal "pub.ext" (Some "*") None (Some "linux")) = Returns Allowed
      /\ isAllowed this (minimal "pub.ext" None None None) = Returns Allowed).
Proof.
  split; [|split; [|split]].
  - intros this allowed ext vs major minor patch platform Hthis Hid
           Hmajor Hminor Hpatch Hplatform Hin Hversion Htp.
    assert (Hne : Locals.version (locals ext) <> "*")
      by (rewrite Hversion; now apply plainVersion_not_star).
    rewrite (isAllowed_version_list this allowed ext vs Hthis Hid Hne), Hversion, Htp.
    replace (some _ _) with true; [reflexivity|].
    symmetry. apply some_versionMatches.
    exists (plainVersion major minor patch ++ "@" ++ platform). split; [exact Hin|].
    apply (versionMatches_plain _ _ _ _ _ Hmajor Hminor Hpatch).
    right. exists platform. auto.
  - intros this allowed ext vs major minor patch Hthis Hid
           Hmajor Hminor Hpatch Hversion Htp Hother.
    assert (Hne : Locals.version (locals ext) <> "*")
      by (rewrite Hversion; now apply plainVersion_not_star).
    rewrite (isAllowed_version_list this allowed ext vs Hthis Hid Hne), Hversion.
    destruct (some _ _) eqn:Hsome; [|reflexivity].
    exfalso.
    apply some_versionMatches in Hsome as (entry & Hin & Hm).
    destruct (Hother entry Hin) as [Hplain Hsuffixed].
    apply (versionMatches_plain _ _ _ _ _ Hmajor Hminor Hpatch) in Hm
      as [->|(p & -> & _ & [Hu| ->])]; [now apply Hplain|now apply Htp|now apply Hsuffixed].
  - intros this allowed ext vs Hthis Hid Hversion. enter_isAllowed.
    now rewrite Hversion.
  - cbv zeta. repeat split; vm_compute; reflexivity.
Qed.

Lemma version_list_rule_witness :
  isAllowed (constructor [] (CObject [("pub.ext", VArray ["1.2.3@win32"; "10.0.7@linux-x64"])]))
            (minimal "pub.ext" (Some "10.0.7") None (Some "linux-x64")) = Returns Allowed
  /\ isAllowed (constructor [] (CObject [("pub.ext", VArray ["1.2.3@win32"; "10.0.7@linux-x64"])]))
               (minimal "pub.ext" (Some "1.2.3") None (Some "linux-x64"))
     = Returns (Denied specific_extension_not_allowed).
Proof.
  destruct version_list_rule as (Hplain & Hdenied & _).
  split.
  - apply (Hplain _
             (Object_fromEntries [("pub.ext", VArray ["1.2.3@win32"; "10.0.7@linux-x64"])])
             _ ["1.2.3@win32"; "10.0.7@linux-x64"] "10" "0" "7" "linux-x64");
      try (vm_compute; reflexivity).
    + split; [discriminate|reflexivity].
    + right. left. reflexivity.
  - apply (Hdenied _
             (Object_fromEntries [("pub.ext", VArray ["1.2.3@win32"; "10.0.7@linux-x64"])])
             _ ["1.2.3@win32"; "10.0.7@linux-x64"] "1" "2" "3");
      try (vm_compute; reflexivity).
    + discriminate.
    + intros entry [<-|[<-|[]]]; split; discriminate.
Defined.

(** C5, as it is stated, fails: on the list of the example, the version
    1.2.3 on the universal target platform, which is the suffix of no entry,
    is permitted. *)
Lemma universal_platform_matches_no_suffix :
  let this := constructor [] (CObject [("pub.ext", VArray ["1.2.3@win32"; "1.2.3@darwin"])]) in
  let ext := minimal "pub.ext" (Some "1.2.3") None (Some TargetPlatformEnum.UNIVERSAL) in
  (exists allowed, allowedExtensions this = Some allowed
                   /\ allowed !! Locals.id (locals ext)
                      = Some (VArray ["1.2.3@win32"; "1.2.3@darwin"]))
  /\ Locals.version (locals ext) = "1.2.3"
  /\ (forall entry, In entry ["1.2.3@win32"; "1.2.3@darwin"] ->
        exists p, entryVersion entry = Some "1.2.3"
                  /\ entryPlatform entry = Some p
                  /\ p <> Locals.targetPlatform (locals ext))
  /\ isAllowed this ext = Returns Allowed.
Proof.
  cbv zeta. split.
  { eexists. split; [reflexivity|]. vm_compute; reflexivity. }
  split; [reflexivity|]. split; [|vm_compute; reflexivity].
  intros entry [<-|[<-|[]]].
  - exists "win32". repeat split; [vm_compute; reflexivity..|discriminate].
  - exists "darwin". repeat split; [vm_compute; reflexivity..|discriminate].
Qed.
(** ** Publisher rule, wildcard and default *)

Lemma resolvePublisher_alias mappings publisher canonical :
  mappings !! publisher = Some canonical ->
  resolvePublisher mappings publisher = Returns (Js.toLowerCase canonical).
Proof. unfold resolvePublisher, Js.get. now intros ->. Qed.

Lemma resolvePublisher_no_alias mappings publisher :
  Js.get mappings publisher = Js.Absent ->
  resolvePublisher mappings publisher = Returns publisher.
Proof. unfold resolvePublisher. now intros ->. Qed.

Lemma resolvePublisher_inherited mappings publisher :
  Js.get mappings publisher = Js.Inherited ->
  resolvePublisher mappings publisher = Throws TypeError.
Proof. unfold resolvePublisher. now intros ->. Qed.

Lemma resolvePublisher_Returns mappings publisher key :
  resolvePublisher mappings publisher = Returns key ->
  (exists canonical, mappings !! publisher = Some canonical /\ key = Js.toLowerCase canonical)
  \/ (Js.get mappings publisher = Js.Absent /\ key = publisher).
Proof.
  unfold resolvePublisher.
  destruct (Js.get mappings publisher) as [alias| |] eqn:Hget; [| discriminate |].
  - intros [= <-]. left. exists alias. split; [now apply get_Own_inv|reflexivity].
  - intros [= <-]. now right.
Qed.

Lemma resolvePublisher_Throws mappings publisher e :
  resolvePublisher mappings publisher = Throws e <->
  Js.get mappings publisher = Js.Inherited.
Proof.
  unfold resolvePublisher.
  destruct (Js.get mappings publisher); split; try discriminate; try reflexivity.
  now destruct e.
Qed.

(** The verdict of the publisher rule, of the wildcard and of the default,
    reached when the lookup of the id finds nothing. *)
Lemma isAllowed_publisher_level this allowed ext key :
  allowedExtensions this = Some allowed ->
  Js.get allowed (Locals.id (locals ext)) = Js.Absent ->
  resolvePublisher (publisherMappings this) (Locals.publisher (locals ext)) = Returns key ->
  isAllowed this ext
  = Returns
      match Js.get allowed key with
      | Js.Own publisherValue =>
          if isBoolean publisherValue then
            if isTrue publisherValue then Allowed else Denied publisher_not_allowed
          else if isString publisherValue "release" && Locals.prerelease (locals ext) then
            Denied prerelease_versions_from_this_publisher_not_allowed
          else Allowed
      | Js.Inherited => Allowed
      | Js.Absent =>
          if wildcardIsTrue allowed then Allowed
          else Denied specific_extension_not_allowed
      end.
Proof.
  intros Hthis Hid Hkey.
  unfold isAllowed. rewrite Hthis. cbv zeta. rewrite Hid, Hkey.
  now destruct (Js.get allowed key).
Qed.

(** The call throws exactly when a table is loaded, the lookup of the id
    finds nothing and the lookup of the publisher in the alias table finds an
    inherited member. *)
Lemma isAllowed_Throws this ext e :
  isAllowed this ext = Throws e <->
  exists allowed,
    allowedExtensions this = Some allowed
    /\ Js.get allowed (Locals.id (locals ext)) = Js.Absent
    /\ Js.get (publisherMappings this) (Locals.publisher (locals ext)) = Js.Inherited.
Proof.
  unfold isAllowed. destruct (allowedExtensions this) as [allowed|].
  - cbv zeta.
    destruct (Js.get allowed (Locals.id (locals ext))) eqn:Hid.
    + split; [discriminate|]. intros (allowed' & [= <-] & Habsent & _). congruence.
    + split; [discriminate|]. intros (allowed' & [= <-] & Habsent & _). congruence.
    + destruct (resolvePublisher _ _) as [key|e'] eqn:Hkey.
      * split.
        -- now destruct (Js.get allowed key).
        -- intros (allowed' & _ & _ & Hinherited).
           apply resolvePublisher_inherited in Hinherited. congruence.
      * split.
        -- intros _. exists allowed. repeat split; [exact Hid|].
           now apply (resolvePublisher_Throws _ _ e').
        -- intros _. now destruct e, e'.
  - split; [discriminate|]. now intros (allowed & [=] & _).
Qed.

(** C7, at the input where the code departs from it.  No alias is
    configured, the table holds a version list under the key "constructor"
    and nothing under the id "constructor.ext": the id is absent from the
    table and the publisher maps to a version list, so that the extension is
    to be permitted.  The lookup of the publisher in the alias table finds
    the member [constructor] that every object inherits, which is no string,
    and the call throws instead of returning. *)
Theorem publisher_rule_throws_on_inherited_name :
  let this := constructor [] (CObject [("constructor", VArray ["1.0.0"])]) in
  let ext := minimal "constructor.ext" (Some "1.0.0") None None in
  (exists allowed,
      allowedExtensions this = Some allowed
      /\ allowed !! Locals.id (locals ext) = None
      /\ publisherMappings this = ∅
      /\ allowed !! Locals.publisher (locals ext) = Some (VArray ["1.0.0"]))
  /\ isAllowed this ext = Throws TypeError.
Proof.
  cbv zeta. split; [|vm_compute; reflexivity].
  eexists. split; [reflexivity|].
  split; [vm_compute; reflexivity|]. split; [reflexivity|vm_compute; reflexivity].
Qed.

(** C8, at the input where the code departs from it.  The table is
    ["x.y": true], without wildcard, and the id is "constructor": neither
    the id nor the publisher, which is empty, is a key of the table, so that
    the extension is to be denied as not in the allowed list.  The lookup of
    the id finds the member [constructor] that every object inherits, and
    the extension is permitted.  The extension a.b is denied. *)
Theorem inherited_name_is_permitted :
  let this := constructor [] (CObject [("x.y", VBool true)]) in
  let ext := minimal "constructor" None None None in
  (exists allowed,
      allowedExtensions this = Some allowed
      /\ allowed !! Locals.id (locals ext) = None
      /\ resolvePublisher (publisherMappings this) (Locals.publisher (locals ext))
         = Returns ""
      /\ allowed !! "" = None
      /\ allowed !! "*" = None)
  /\ isAllowed this ext = Returns Allowed
  /\ isAllowed this (minimal "a.b" None None None)
     = Returns (Denied specific_extension_not_allowed).
Proof.
  cbv zeta. split; [|split; vm_compute; reflexivity].
  eexists. split; [reflexivity|].
  repeat split; vm_compute; reflexivity.
Qed.

(** ** Publisher aliases *)

(** The verdict depends on the alias table and on the publisher only through
    the resolved publisher, and not at all when the id has an entry. *)
Lemma isAllowed_resolved this this' ext ext' :
  allowedExtensions this = allowedExtensions this' ->
  Locals.id (locals ext) = Locals.id (locals ext') ->
  Locals.version (locals ext) = Locals.version (locals ext') ->
  Locals.targetPlatform (locals ext) = Locals.targetPlatform (locals ext') ->
  Locals.prerelease (locals ext) = Locals.prerelease (locals ext') ->
  resolvePublisher (publisherMappings this) (Locals.publisher (locals ext))
  = resolvePublisher (publisherMappings this') (Locals.publisher (locals ext')) ->
  isAllowed this ext = isAllowed this' ext'.
Proof.
  intros Htable Hid Hversion Htp Hpre Hpublisher.
  unfold isAllowed. now rewrite Htable, Hid, Hversion, Htp, Hpre, Hpublisher.
Qed.

(** C9, at the input where the code departs from it.  The alias table is
    ["oldname": "newname"] and the table denies the publishers newname and
    constructor.  The publisher of the extension constructor.ext has no
    alias, so that its name is to be used as given and the extension denied
    by the publisher rule.  The lookup in the alias table finds the member
    [constructor] that every object inherits, which is no string, and the
    call throws.  The extension of the publisher oldname is denied by the
    publisher rule. *)
Theorem unaliased_inherited_name_throws :
  let this := constructor [("oldname", "newname")]
                (CObject [("newname", VBool false); ("constructor", VBool false)]) in
  let ext := minimal "constructor.ext" None None None in
  (exists allowed,
      allowedExtensions this = Some allowed
      /\ allowed !! Locals.id (locals ext) = None
      /\ publisherMappings this !! Locals.publisher (locals ext) = None
      /\ allowed !! Locals.publisher (locals ext) = Some (VBool false))
  /\ isAllowed this ext = Throws TypeError
  /\ isAllowed this (minimal "oldname.ext" None None None)
     = Returns (Denied publisher_not_allowed).
Proof.
  cbv zeta. split; [|split; vm_compute; reflexivity].
  eexists. split; [reflexivity|].
  repeat split; vm_compute; reflexivity.
Qed.

(** ** Ids without a dot *)

(** C10, as the code has it.  The publisher derived from the id of a minimal
    record without a dot is the empty string, and it is resolved through the
    alias table as any other: to the empty key when the alias table has no
    entry for the empty string, and to the canonical name when it has one.
    When the lookup of the id in the table finds nothing, the publisher rule
    is applied to the resolved key: a boolean entry under that key decides,
    and when the lookup under that key finds nothing the wildcard or the
    default decides. *)
Theorem dotless_id_has_empty_publisher id version prerelease targetPlatform :
  (forall n, String.get n id <> Some "."%char) ->
  let ext := minimal id version prerelease targetPlatform in
  Locals.publisher (locals ext) = ""
  /\ (forall this,
        publisherMappings this !! "" = None ->
        resolvePublisher (publisherMappings this) (Locals.publisher (locals ext))
        = Returns "")
  /\ (forall this canonical,
        publisherMappings this !! "" = Some canonical ->
        resolvePublisher (publisherMappings this) (Locals.publisher (locals ext))
        = Returns (Js.toLowerCase canonical))
  /\ (forall this allowed key,
        allowedExtensions this = Some allowed ->
        Js.get allowed (Locals.id (locals ext)) = Js.Absent ->
        resolvePublisher (publisherMappings this) "" = Returns key ->
        Js.get allowed key = Js.Absent ->
        isAllowed this ext
        = Returns (if wildcardIsTrue allowed
                   then Allowed else Denied specific_extension_not_allowed))
  /\ (forall this allowed key b,
        allowedExtensions this = Some allowed ->
        Js.get allowed (Locals.id (locals ext)) = Js.Absent ->
        resolvePublisher (publisherMappings this) "" = Returns key ->
        allowed !! key = Some (VBool b) ->
        isAllowed this ext
        = Returns (if b then Allowed else Denied publisher_not_allowed)).
Proof.
  intros Hid ext.
  assert (Hpublisher : Locals.publisher (locals ext) = "")
    by now apply publisher_of_dotless.
  split; [exact Hpublisher|]. rewrite Hpublisher.
  split; [intros this Hnone; apply resolvePublisher_no_alias; now apply get_absent|].
  split; [intros this canonical; apply resolvePublisher_alias|].
  split.
  - intros this allowed key Hthis Hentry Hkey Habsent.
    rewrite (isAllowed_publisher_level this allowed ext key Hthis Hentry);
      [|now rewrite Hpublisher].
    now rewrite Habsent.
  - intros this allowed key b Hthis Hentry Hkey Hown.
    rewrite (isAllowed_publisher_level this allowed ext key Hthis Hentry);
      [|now rewrite Hpublisher].
    rewrite (get_own _ _ _ Hown). now destruct b.
Qed.

Lemma dotless_id_has_empty_publisher_witness :
  Locals.publisher (locals (minimal "ext" (Some "1.0.0") None None)) = ""
  /\ isAllowed (constructor [("old", "new")] (CObject [("", VBool false); ("*", VBool true)]))
               (minimal "ext" (Some "1.0.0") None None)
     = Returns (Denied publisher_not_allowed).
Proof.
  assert (Hdotless : forall n, String.get n "ext" <> Some "."%char)
    by (intros [|[|[|n]]]; discriminate).
  destruct (dotless_id_has_empty_publisher "ext" (Some "1.0.0") None None Hdotless)
    as (Hpublisher & _ & _ & _ & Hentry).
  split; [exact Hpublisher|].
  apply (Hentry _ (Object_fromEntries [("", VBool false); ("*", VBool true)]) "" false);
    vm_compute; reflexivity.
Defined.

(** C10, as it is stated, fails: the id has no dot and the table has no
    entry under the empty key, yet the publisher rule applies, to the entry
    of the alias of the empty string. *)
Lemma dotless_id_matches_alias_entry :
  let this := constructor [("", "foo")] (CObject [("foo", VBool false)]) in
  let ext := minimal "ext" None None None in
  (forall n, String.get n "ext" <> Some "."%char)
  /\ Locals.publisher (locals ext) = ""
  /\ (exists allowed, allowedExtensions this = Some allowed
                      /\ allowed !! Locals.id (locals ext) = None
                      /\ allowed !! "" = None)
  /\ isAllowed this ext = Returns (Denied publisher_not_allowed).
Proof.
  cbv zeta. split; [intros [|[|[|n]]]; discriminate|].
  split; [reflexivity|]. split; [|vm_compute; reflexivity].
  eexists. split; [reflexivity|]. split; vm_compute; reflexivity.
Qed.

(** ** Further facts about the pattern *)

(** An entry with a pre-release suffix and a platform suffix: the greedy
    [.*] of the pre-release suffix takes the platform suffix with it, and
    the group [platform] stays undefined. *)
Example exec_prerelease_platform :
  RegExp.exec VersionRegex "1.2.3-beta@win32"
  = Some {| RegExp.g_version := Some "1.2.3-beta@win32"; RegExp.g_platform := None |}.
Proof. reflexivity. Qed.

(** Entries the pattern refuses match no version. *)
Example exec_refused :
  RegExp.exec VersionRegex "1.2" = None
  /\ RegExp.exec VersionRegex "v1.2.3" = None
  /\ RegExp.exec VersionRegex "1.2.3@" = None.
Proof. repeat split. Qed.

(** ** Loading the configuration *)

Lemma lowerChar_idemp c : Js.lowerChar (Js.lowerChar c) = Js.lowerChar c.
Proof.
  unfold Js.lowerChar.
  destruct ((65 <=? nat_of_ascii c)%nat && (nat_of_ascii c <=? 90)%nat) eqn:Hc.
  - apply andb_true_iff in Hc as [Hlo Hhi].
    apply Nat.leb_le in Hlo, Hhi.
    rewrite nat_ascii_embedding by lia.
    replace (nat_of_ascii c + 32 <=? 90)%nat with false
      by (symmetry; apply Nat.leb_gt; lia).
    now rewrite andb_false_r.
  - now rewrite Hc.
Qed.

Lemma toLowerCase_idemp s : Js.toLowerCase (Js.toLowerCase s) = Js.toLowerCase s.
Proof.
  induction s as [|c s IH]; simpl; [reflexivity|].
  now rewrite lowerChar_idemp, IH.
Qed.

Lemma lowerKeys_idemp {V} (entries : list (string * V)) :
  lowerKeys (lowerKeys entries) = lowerKeys entries.
Proof.
  unfold lowerKeys. rewrite map_map. apply map_ext.
  intros [k v]. simpl. now rewrite toLowerCase_idemp.
Qed.

(** Lower case produces a star or a dot only from a star or a dot. *)
Lemma lowerChar_star c : Js.lowerChar c = "*"%char -> c = "*"%char.
Proof.
  destruct c as [[] [] [] [] [] [] [] []]; intros H;
    first [reflexivity | vm_compute in H; discriminate H].
Qed.

Lemma lowerChar_dot c : Js.lowerChar c = "."%char -> c = "."%char.
Proof.
  destruct c as [[] [] [] [] [] [] [] []]; intros H;
    first [reflexivity | vm_compute in H; discriminate H].
Qed.

Lemma toLowerCase_star s : Js.toLowerCase s = "*" <-> s = "*".
Proof.
  split; [|now intros ->].
  destruct s as [|c [|c' s]]; simpl; try discriminate.
  intros [= Hc]. now rewrite (lowerChar_star c Hc).
Qed.

(** A lookup in the object built from entries finds the last entry under
    the key. *)
Lemma fold_insert_lookup {V} (entries : list (string * V)) (m : gmap string V) key :
  fold_left (fun m kv => <[kv.1 := kv.2]> m) entries m !! key
  = match lookupLast key entries with
    | Some v => Some v
    | None => m !! key
    end.
Proof.
  revert m. induction entries as [|[k v] entries IH]; intros m; simpl; [reflexivity|].
  rewrite IH. destruct (lookupLast key entries); [reflexivity|].
  rewrite lookup_insert.
  destruct (String.eqb_spec k key) as [->|Hne].
  - now rewrite decide_True.
  - now rewrite decide_False.
Qed.

Lemma fromEntries_lookup {V} (entries : list (string * V)) key :
  Object_fromEntries entries !! key = lookupLast key entries.
Proof.
  unfold Object_fromEntries. rewrite fold_insert_lookup.
  now destruct (lookupLast key entries).
Qed.

Lemma lookupLast_In {V} (entries : list (string * V)) key v :
  lookupLast key entries = Some v -> In (key, v) entries.
Proof.
  induction entries as [|[k v'] entries IH]; simpl; [discriminate|].
  destruct (lookupLast key entries) as [w|].
  - intros [= ->]. right. now apply IH.
  - destruct (String.eqb_spec k key) as [->|_]; [|discriminate].
    intros [= ->]. now left.
Qed.

Lemma lookupLast_None {V} (entries : list (string * V)) key :
  (forall kv, In kv entries -> kv.1 <> key) -> lookupLast key entries = None.
Proof.
  induction entries as [|[k v] entries IH]; intros Hkeys; simpl; [reflexivity|].
  rewrite IH by (intros kv Hin; apply Hkeys; now right).
  destruct (String.eqb_spec k key) as [Heq|_]; [|reflexivity].
  exfalso. apply (Hkeys (k, v)); [now left|exact Heq].
Qed.

Lemma lookupLast_last {V} (before after : list (string * V)) key v :
  (forall kv, In kv after -> kv.1 <> key) ->
  lookupLast key (before ++ (key, v) :: after) = Some v.
Proof.
  intros Hafter. induction before as [|kv before IH]; simpl.
  - rewrite (lookupLast_None after key Hafter). simpl. now rewrite String.eqb_refl.
  - now rewrite IH.
Qed.

(** What [getAllowedExtensionsValue] returns when it returns a table. *)
Lemma loaded_table value table :
  getAllowedExtensionsValue value = Some table ->
  exists entries, value = CObject entries /\ table = Object_fromEntries (lowerKeys entries).
Proof.
  unfold getAllowedExtensionsValue.
  destruct value as [| | | | | |entries]; simpl; try discriminate.
  fold (lowerKeys entries).
  destruct (_ && _); [discriminate|].
  intros [= <-]. now exists entries.
Qed.

(** X1.  The keys of the configuration are read without regard to case:
    writing them in lower case loads the same table. *)
Theorem config_keys_case_insensitive entries :
  getAllowedExtensionsValue (CObject (lowerKeys entries))
  = getAllowedExtensionsValue (CObject entries).
Proof.
  unfold getAllowedExtensionsValue. simpl.
  fold (lowerKeys (lowerKeys entries)). fold (lowerKeys entries).
  now rewrite lowerKeys_idemp.
Qed.

(** X2.  Every key of a loaded table is in lower case, so an entry can
    only ever be found under a lowercase id or publisher. *)
Theorem loaded_keys_lowercase value table key v :
  getAllowedExtensionsValue value = Some table ->
  table !! key = Some v ->
  Js.toLowerCase key = key.
Proof.
  intros Hload Hkey.
  destruct (loaded_table value table Hload) as (entries & -> & ->).
  rewrite fromEntries_lookup in Hkey. apply lookupLast_In in Hkey.
  unfold lowerKeys in Hkey. apply in_map_iff in Hkey as ([k w] & [= <- _] & _).
  apply toLowerCase_idemp.
Qed.

Lemma loaded_keys_lowercase_witness :
  Js.toLowerCase "pub.ext" = "pub.ext".
Proof.
  apply (loaded_keys_lowercase (CObject [("Pub.Ext", VBool false)])
           (Object_fromEntries [("pub.ext", VBool false)]) "pub.ext" (VBool false));
    vm_compute; reflexivity.
Defined.

(** X3.  When several keys of the configuration differ only in case, the
    last of them in enumeration order decides: a loaded table maps the
    lowercase key to the value of the last entry under a key equal to it up
    to case. *)
Theorem last_entry_wins before key v after table :
  getAllowedExtensionsValue (CObject (before ++ (key, v) :: after)) = Some table ->
  (forall kv, In kv after -> Js.toLowerCase kv.1 <> Js.toLowerCase key) ->
  table !! Js.toLowerCase key = Some v.
Proof.
  intros Hload Hafter.
  destruct (loaded_table _ table Hload) as (entries & [= <-] & ->).
  rewrite fromEntries_lookup. unfold lowerKeys. rewrite map_app. simpl.
  apply lookupLast_last.
  intros kv [[k w] [<- Hin]]%in_map_iff. simpl. now apply (Hafter (k, w)).
Qed.

Lemma last_entry_wins_witness :
  Object_fromEntries (lowerKeys [("Pub.Ext", VBool true); ("pub.EXT", VBool false);
                                 ("other", VBool true)])
    !! Js.toLowerCase "pub.EXT" = Some (VBool false).
Proof.
  apply (last_entry_wins [("Pub.Ext", VBool true)] "pub.EXT" (VBool false)
           [("other", VBool true)]).
  - vm_compute; reflexivity.
  - intros kv [<-|[]]. vm_compute. discriminate.
Defined.

(** X4.  No table is loaded exactly when the value is not an object or is
    the object with the single entry ["*": true]; every other object,
    the empty one included, loads a table. *)
Theorem no_table_iff value :
  getAllowedExtensionsValue value = None
  <-> isObject value = false \/ value = CObject [("*", VBool true)].
Proof.
  unfold getAllowedExtensionsValue.
  destruct value as [| | | | | |entries]; simpl; try (split; [now left|reflexivity]).
  destruct entries as [|[k v] [|kv entries]]; simpl.
  - split; [discriminate|intros [|]; discriminate].
  - destruct (String.eqb_spec (Js.toLowerCase k) "*") as [Hk|Hk]; simpl.
    + apply toLowerCase_star in Hk as ->.
      destruct v as [[|]|s|vs]; simpl;
        (split; [try discriminate; now right|intros [|[=]]; try discriminate; reflexivity]).
    + split; [discriminate|].
      intros [|[= -> _]]; [discriminate|]. now exfalso.
  - split; [discriminate|intros [|]; discriminate].
Qed.

(** ** The alias table *)

Lemma buildPublisherMappings_lowercase (entries : list (string * string))
      (m : gmap string string) key canonical :
  (forall k c, m !! k = Some c -> Js.toLowerCase k = k /\ Js.toLowerCase c = c) ->
  fold_left (fun m kv => if Js.toLowerCase kv.1 =? "__proto__" then m
                         else <[Js.toLowerCase kv.1 := Js.toLowerCase kv.2]> m)
            entries m !! key = Some canonical ->
  Js.toLowerCase key = key /\ Js.toLowerCase canonical = canonical.
Proof.
  revert m. induction entries as [|[k c] entries IH]; intros m Hm; simpl.
  - apply Hm.
  - apply IH. destruct (Js.toLowerCase k =? "__proto__"); [exact Hm|].
    intros k' c' [[<- <-]|[_ Hold]]%lookup_insert_Some.
    + now rewrite !toLowerCase_idemp.
    + now apply Hm.
Qed.

(** X5.  The alias table the constructor builds has lowercase keys and
    lowercase values, so the second [toLowerCase] at the lookup changes
    nothing: the alias is used as stored. *)
Theorem alias_table_lowercase extensionPublisherMappings :
  (forall key canonical,
      buildPublisherMappings extensionPublisherMappings !! key = Some canonical ->
      Js.toLowerCase key = key /\ Js.toLowerCase canonical = canonical)
  /\ (forall publisher canonical,
      buildPublisherMappings extensionPublisherMappings !! publisher = Some canonical ->
      resolvePublisher (buildPublisherMappings extensionPublisherMappings) publisher
      = Returns canonical).
Proof.
  assert (Hlower : forall key canonical,
      buildPublisherMappings extensionPublisherMappings !! key = Some canonical ->
      Js.toLowerCase key = key /\ Js.toLowerCase canonical = canonical).
  { intros key canonical. unfold buildPublisherMappings.
    apply buildPublisherMappings_lowercase. intros k c. now rewrite lookup_empty. }
  split; [exact Hlower|].
  intros publisher canonical Halias.
  rewrite (resolvePublisher_alias _ _ _ Halias).
  f_equal. now apply (Hlower publisher canonical).
Qed.

Lemma alias_table_lowercase_witness :
  Js.toLowerCase "ms-old" = "ms-old" /\ Js.toLowerCase "ms-new" = "ms-new".
Proof.
  apply (proj1 (alias_table_lowercase [("MS-Old", "MS-New")]) "ms-old" "ms-new").
  vm_compute; reflexivity.
Defined.

(** ** Case of ids and publishers *)

Lemma length_toLowerCase s : String.length (Js.toLowerCase s) = String.length s.
Proof. induction s as [|c s IH]; simpl; [reflexivity|now rewrite IH]. Qed.

Lemma substring_toLowerCase n m s :
  String.substring n m (Js.toLowerCase s) = Js.toLowerCase (String.substring n m s).
Proof.
  revert n m. induction s as [|c s IH]; intros [|n] [|m]; simpl; try reflexivity.
  - now rewrite IH.
  - apply IH.
  - apply IH.
Qed.

Lemma index_dot_cons c s :
  String.index 0 "." (String c s)
  = if Ascii.eqb "." c then Some 0%nat
    else match String.index 0 "." s with
         | Some n => Some (S n)
         | None => None
         end.
Proof.
  change (String.index 0 "." (String c s))
    with (if String.prefix "." (String c s) then Some 0%nat
          else match String.index 0 "." s with
               | Some n => Some (S n)
               | None => None
               end).
  change (String.prefix "." (String c s))
    with (match ascii_dec "." c with
          | left _ => String.prefix "" s
          | right _ => false
          end).
  destruct (ascii_dec "." c) as [<-|Hc].
  - now destruct s.
  - apply Ascii.eqb_neq in Hc. now rewrite Hc.
Qed.

Lemma index_dot_toLowerCase s :
  String.index 0 "." (Js.toLowerCase s) = String.index 0 "." s.
Proof.
  induction s as [|c s IH]; [reflexivity|].
  change (Js.toLowerCase (String c s)) with (String (Js.lowerChar c) (Js.toLowerCase s)).
  rewrite !index_dot_cons, IH.
  destruct (Ascii.eqb_spec "." (Js.lowerChar c)) as [Hl|Hl],
           (Ascii.eqb_spec "." c) as [Hc|Hc]; try reflexivity.
  - exfalso. apply Hc. symmetry. now apply lowerChar_dot.
  - exfalso. apply Hl. now rewrite <- Hc.
Qed.

Lemma js_substring_toLowerCase s a b :
  Js.substring (Js.toLowerCase s) a b = Js.toLowerCase (Js.substring s a b).
Proof.
  unfold Js.substring. rewrite length_toLowerCase. apply substring_toLowerCase.
Qed.

(** X6.  The verdict does not depend on the case of the id of a minimal
    record, nor on the case of the id and the publisher of a gallery or an
    installed record. *)
Theorem id_case_insensitive this :
  (forall id version prerelease targetPlatform,
      isAllowed this (minimal (Js.toLowerCase id) version prerelease targetPlatform)
      = isAllowed this (minimal id version prerelease targetPlatform))
  /\ (forall extension,
      isAllowed this
        (Gallery {| IGalleryExtension.identifier_id :=
                      Js.toLowerCase (IGalleryExtension.identifier_id extension);
                    IGalleryExtension.version := IGalleryExtension.version extension;
                    IGalleryExtension.publisher :=
                      Js.toLowerCase (IGalleryExtension.publisher extension);
                    IGalleryExtension.properties_isPreReleaseVersion :=
                      IGalleryExtension.properties_isPreReleaseVersion extension;
                    IGalleryExtension.properties_targetPlatform :=
                      IGalleryExtension.properties_targetPlatform extension |})
      = isAllowed this (Gallery extension))
  /\ (forall extension,
      isAllowed this
        (Installed {| IExtension.identifier_id :=
                        Js.toLowerCase (IExtension.identifier_id extension);
                      IExtension.manifest_version := IExtension.manifest_version extension;
                      IExtension.manifest_publisher :=
                        Js.toLowerCase (IExtension.manifest_publisher extension);
                      IExtension.preRelease := IExtension.preRelease extension;
                      IExtension.targetPlatform := IExtension.targetPlatform extension |})
      = isAllowed this (Installed extension)).
Proof.
  split; [|split].
  - intros id version prerelease targetPlatform.
    apply isAllowed_resolved; try reflexivity; simpl.
    + apply toLowerCase_idemp.
    + unfold Js.indexOf. rewrite index_dot_toLowerCase, js_substring_toLowerCase.
      now rewrite toLowerCase_idemp.
  - intros extension.
    apply isAllowed_resolved; try reflexivity; simpl; now rewrite toLowerCase_idemp.
  - intros extension.
    apply isAllowed_resolved; try reflexivity; simpl; now rewrite toLowerCase_idemp.
Qed.

(** ** Monotonicity of the verdict *)

(** X7.  A release is never treated more strictly than a pre-release: if an
    extension is permitted as a pre-release, the same extension is permitted
    as a release. *)
Theorem release_at_least_as_permitted this ext ext' :
  Locals.id (locals ext') = Locals.id (locals ext) ->
  Locals.version (locals ext') = Locals.version (locals ext) ->
  Locals.targetPlatform (locals ext') = Locals.targetPlatform (locals ext) ->
  Locals.publisher (locals ext') = Locals.publisher (locals ext) ->
  Locals.prerelease (locals ext') = false ->
  isAllowed this ext = Returns Allowed ->
  isAllowed this ext' = Returns Allowed.
Proof.
  intros Hid Hversion Htp Hpublisher Hpre.
  unfold isAllowed. destruct (allowedExtensions this) as [allowed|]; [|reflexivity].
  cbv zeta. rewrite Hid, Hversion, Htp, Hpublisher, Hpre.
  destruct (Js.get allowed (Locals.id (locals ext))) as [v| |]; [|trivial|].
  - rewrite andb_false_r.
    destruct (isBoolean v); [trivial|].
    destruct (isString v "release" && Locals.prerelease (locals ext)); [discriminate|].
    trivial.
  - destruct (resolvePublisher _ _) as [publisher|e]; [|trivial].
    destruct (Js.get allowed publisher) as [v| |]; [|trivial|trivial].
    rewrite andb_false_r.
    destruct (isBoolean v); [trivial|reflexivity].
Qed.

Lemma release_at_least_as_permitted_witness :
  isAllowed (constructor [] (CObject [("pub", VArray ["1.0.0"])]))
            (minimal "pub.ext" (Some "2.0.0") (Some false) None) = Returns Allowed.
Proof.
  apply (release_at_least_as_permitted _
           (minimal "pub.ext" (Some "2.0.0") (Some true) None));
    vm_compute; reflexivity.
Defined.

(** X8.  An unspecified version is never treated more strictly than a
    definite one: if an extension is permitted at some version, it is
    permitted at version "*". *)
Theorem any_version_at_least_as_permitted this ext ext' :
  Locals.id (locals ext') = Locals.id (locals ext) ->
  Locals.prerelease (locals ext') = Locals.prerelease (locals ext) ->
  Locals.targetPlatform (locals ext') = Locals.targetPlatform (locals ext) ->
  Locals.publisher (locals ext') = Locals.publisher (locals ext) ->
  Locals.version (locals ext') = "*" ->
  isAllowed this ext = Returns Allowed ->
  isAllowed this ext' = Returns Allowed.
Proof.
  intros Hid Hpre Htp Hpublisher Hversion.
  unfold isAllowed. destruct (allowedExtensions this) as [allowed|]; [|reflexivity].
  cbv zeta. rewrite Hid, Hpre, Htp, Hpublisher, Hversion.
  destruct (Js.get allowed (Locals.id (locals ext))) as [v| |]; [|trivial|trivial].
  destruct (isBoolean v); [trivial|].
  destruct (isString v "release" && Locals.prerelease (locals ext)); [trivial|].
  reflexivity.
Qed.

Lemma any_version_at_least_as_permitted_witness :
  isAllowed (constructor [] (CObject [("pub.ext", VArray ["1.0.0"])]))
            (minimal "pub.ext" None None None) = Returns Allowed.
Proof.
  apply (any_version_at_least_as_permitted _
           (minimal "pub.ext" (Some "1.0.0") None None));
    vm_compute; reflexivity.
Defined.

Lemma versionMatches_universal version targetPlatform entry :
  versionMatches version targetPlatform entry = true ->
  versionMatches version TargetPlatformEnum.UNIVERSAL entry = true.
Proof.
  rewrite !versionMatches_spec. intros [Hv _]. auto.
Qed.

(** X9.  The universal target platform is never treated more strictly
    than a specific one: if an extension is permitted for some target
    platform, it is permitted for the universal one. *)
Theorem universal_at_least_as_permitted this ext ext' :
  Locals.id (locals ext') = Locals.id (locals ext) ->
  Locals.prerelease (locals ext') = Locals.prerelease (locals ext) ->
  Locals.version (locals ext') = Locals.version (locals ext) ->
  Locals.publisher (locals ext') = Locals.publisher (locals ext) ->
  Locals.targetPlatform (locals ext') = TargetPlatformEnum.UNIVERSAL ->
  isAllowed this ext = Returns Allowed ->
  isAllowed this ext' = Returns Allowed.
Proof.
  intros Hid Hpre Hversion Hpublisher Htp.
  unfold isAllowed. destruct (allowedExtensions this) as [allowed|]; [|reflexivity].
  cbv zeta. rewrite Hid, Hpre, Hversion, Hpublisher, Htp.
  destruct (Js.get allowed (Locals.id (locals ext))) as [v| |]; [|trivial|trivial].
  destruct (isBoolean v); [trivial|].
  destruct (isString v "release" && Locals.prerelease (locals ext)); [trivial|].
  destruct (negb (Locals.version (locals ext) =? "*")); simpl; [|reflexivity].
  destruct v as [b|s|vs]; simpl; try reflexivity.
  destruct (existsb (versionMatches _ (Locals.targetPlatform (locals ext))) vs) eqn:Hsome;
    simpl; [|discriminate].
  intros _. apply existsb_exists in Hsome as (entry & Hin & Hm).
  replace (existsb _ vs) with true; [reflexivity|].
  symmetry. apply existsb_exists. exists entry. split; [exact Hin|].
  now apply (versionMatches_universal _ (Locals.targetPlatform (locals ext))).
Qed.

Lemma universal_at_least_as_permitted_witness :
  isAllowed (constructor [] (CObject [("pub.ext", VArray ["1.0.0@linux-x64"])]))
            (minimal "pub.ext" (Some "1.0.0") None None) = Returns Allowed.
Proof.
  apply (universal_at_least_as_permitted _
           (minimal "pub.ext" (Some "1.0.0") None (Some "linux-x64")));
    vm_compute; reflexivity.
Defined.

(** ** From a denial to its cause *)

(** X10.  Each outcome other than a permit tells its cause.  The
    pre-release reason of the extension is given exactly when the table has
    the entry "release" for the id and the extension is a pre-release; the
    two publisher reasons exactly when the lookup of the id finds nothing,
    the publisher resolves to a key, and the table has under that key the
    entry [false], or the entry "release" against a pre-release; the generic
    reason exactly when the table has for the id the entry [false], or a
    version list without a match for a definite version, or when the lookups
    of the id and of the key the publisher resolves to find nothing and the
    table does not map "*" to [true]; and the call throws exactly when the
    lookup of the id finds nothing and the lookup of the publisher in the
    alias table finds a member every object inherits.  A lookup finds
    nothing when there is no entry under the key and the key names no
    inherited member. *)
Theorem denial_reasons this allowed ext :
  allowedExtensions this = Some allowed ->
  let l := locals ext in
  let resolved := resolvePublisher (publisherMappings this) (Locals.publisher l) in
  (isAllowed this ext = Returns (Denied extension_prerelease_not_allowed)
   <-> allowed !! Locals.id l = Some (VString "release") /\ Locals.prerelease l = true)
  /\ (isAllowed this ext = Returns (Denied publisher_not_allowed)
      <-> Js.get allowed (Locals.id l) = Js.Absent
          /\ exists publisher,
               resolved = Returns publisher /\ allowed !! publisher = Some (VBool false))
  /\ (isAllowed this ext = Returns (Denied prerelease_versions_from_this_publisher_not_allowed)
      <-> Js.get allowed (Locals.id l) = Js.Absent
          /\ (exists publisher,
                resolved = Returns publisher
                /\ allowed !! publisher = Some (VString "release"))
          /\ Locals.prerelease l = true)
  /\ (isAllowed this ext = Returns (Denied specific_extension_not_allowed)
      <-> allowed !! Locals.id l = Some (VBool false)
          \/ (exists vs, allowed !! Locals.id l = Some (VArray vs)
                         /\ Locals.version l <> "*"
                         /\ forall entry, In entry vs ->
                              versionMatches (Locals.version l) (Locals.targetPlatform l) entry
                              = false)
          \/ (Js.get allowed (Locals.id l) = Js.Absent
              /\ (exists publisher,
                    resolved = Returns publisher /\ Js.get allowed publisher = Js.Absent)
              /\ allowed !! "*" <> Some (VBool true)))
  /\ (isAllowed this ext = Throws TypeError
      <-> Js.get allowed (Locals.id l) = Js.Absent
          /\ Js.get (publisherMappings this) (Locals.publisher l) = Js.Inherited).
Proof.
  intros Hthis l resolved. subst l resolved.
  unfold isAllowed. rewrite Hthis. cbv zeta.
  destruct (Js.get allowed (Locals.id (locals ext))) as [v| |] eqn:Hget.
  - apply get_Own_inv in Hget as Hid. rewrite Hid.
    destruct v as [[|]|s|vs]; simpl.
    + reason_cases.
    + reason_cases.
    + rewrite andb_false_r. simpl.
      destruct (String.eqb_spec s "release") as [->|Hs];
        destruct (Locals.prerelease (locals ext)); simpl;
        reason_cases.
    + rewrite andb_true_r.
      destruct (String.eqb_spec (Locals.version (locals ext)) "*") as [Hv|Hv]; simpl.
      * reason_cases.
      * destruct (existsb _ vs) eqn:Hsome; simpl.
        -- apply existsb_exists in Hsome as (entry & Hin & Hm).
           reason_cases.
           intros [[=]|[(vs' & [= <-] & _ & Hno)|[[=] _]]].
           rewrite (Hno entry Hin) in Hm. discriminate.
        -- reason_cases.
           intros _. right. left. exists vs. repeat split; [exact Hv|].
           intros entry Hin.
           destruct (versionMatches _ _ entry) eqn:Hm; [|reflexivity].
           assert (existsb (versionMatches (Locals.version (locals ext))
                              (Locals.targetPlatform (locals ext))) vs = true)
             by (apply existsb_exists; eauto).
           congruence.
  - apply get_Inherited_inv in Hget as [Hid _]. rewrite Hid. reason_cases.
  - apply get_Absent_inv in Hget as [Hid _]. rewrite Hid.
    destruct (resolvePublisher _ _) as [publisher|[]] eqn:Hresolved.
    + assert (Hinherited : Js.get (publisherMappings this) (Locals.publisher (locals ext))
                           <> Js.Inherited)
        by (intros Hi%resolvePublisher_inherited; congruence).
      destruct (Js.get allowed publisher) as [v| |] eqn:Hpub.
      * apply get_Own_inv in Hpub as Hentry.
        destruct v as [[|]|s|vs]; simpl.
        -- reason_cases.
        -- reason_cases.
        -- destruct (String.eqb_spec s "release") as [->|Hs];
             destruct (Locals.prerelease (locals ext)); simpl;
             reason_cases.
        -- reason_cases.
      * apply get_Inherited_inv in Hpub as Hentry. destruct Hentry as [Hentry _].
        reason_cases.
      * apply get_Absent_inv in Hpub as Hentry. destruct Hentry as [Hentry _].
        pose proof (wildcardIsTrue_lookup allowed) as Hwild.
        fold (wildcardIsTrue allowed).
        destruct (wildcardIsTrue allowed).
        -- reason_cases.
           intros [[=]|[(vs' & [=] & _)|(_ & _ & Hne)]].
           exfalso. now apply Hne, Hwild.
        -- reason_cases.
           intros _. right. right. split; [reflexivity|]. split; [eauto|].
           intros Hstar. apply Hwild in Hstar. discriminate.
    + apply (resolvePublisher_Throws _ _ TypeError) in Hresolved.
      reason_cases.
Qed.

Lemma denial_reasons_witness :
  isAllowed (constructor [("old", "new")] (CObject [("new", VBool false)]))
            (minimal "old.ext" None None None)
  = Returns (Denied publisher_not_allowed).
Proof.
  apply (denial_reasons _ (Object_fromEntries [("new", VBool false)]));
    [vm_compute; reflexivity|].
  split; [vm_compute; reflexivity|].
  exists "new". split; vm_compute; reflexivity.
Defined.

(** X11.  Nothing but an entry, an inherited member or the wildcard
    permits: under a loaded table a permitted extension has an entry other
    than [false] for its id, or its id names a member every object inherits,
    or the lookup of its id finds nothing and the key its publisher resolves
    to has an entry other than [false], or names an inherited member, or has
    nothing while the table maps "*" to [true].  So the empty object, which
    loads a table, denies every extension whose id names no inherited member
    and whose publisher resolves to a key that names none. *)
Theorem permitted_needs_entry :
  (forall this allowed ext,
      allowedExtensions this = Some allowed ->
      isAllowed this ext = Returns Allowed ->
      (exists v, allowed !! Locals.id (locals ext) = Some v /\ v <> VBool false)
      \/ Js.get allowed (Locals.id (locals ext)) = Js.Inherited
      \/ (Js.get allowed (Locals.id (locals ext)) = Js.Absent
          /\ exists publisher,
               resolvePublisher (publisherMappings this) (Locals.publisher (locals ext))
               = Returns publisher
               /\ ((exists v, allowed !! publisher = Some v /\ v <> VBool false)
                   \/ Js.get allowed publisher = Js.Inherited
                   \/ (Js.get allowed publisher = Js.Absent
                       /\ allowed !! "*" = Some (VBool true)))))
  /\ (forall mappings ext publisher,
      Js.inheritedMember (Locals.id (locals ext)) = false ->
      resolvePublisher (publisherMappings (constructor mappings (CObject [])))
                       (Locals.publisher (locals ext))
      = Returns publisher ->
      Js.inheritedMember publisher = false ->
      isAllowed (constructor mappings (CObject [])) ext
      = Returns (Denied specific_extension_not_allowed)).
Proof.
  split.
  - intros this allowed ext Hthis. unfold isAllowed. rewrite Hthis. cbv zeta.
    destruct (Js.get allowed (Locals.id (locals ext))) as [v| |] eqn:Hget.
    + intros Hverdict. left. exists v. split; [now apply get_Own_inv|].
      intros ->. discriminate Hverdict.
    + intros _. right. now left.
    + destruct (resolvePublisher _ _) as [publisher|e]; [|discriminate].
      intros Hverdict. right. right. split; [reflexivity|].
      exists publisher. split; [reflexivity|].
      destruct (Js.get allowed publisher) as [v| |] eqn:Hpub.
      * left. exists v. split; [now apply get_Own_inv|].
        intros ->. discriminate Hverdict.
      * right. now left.
      * right. right. split; [reflexivity|].
        apply wildcardIsTrue_lookup. unfold wildcardIsTrue.
        destruct (match Js.get allowed "*" with
                  | Js.Own value => isTrue value
                  | _ => false
                  end); [reflexivity|discriminate Hverdict].
  - intros mappings ext publisher Hid Hresolved Hpublisher.
    assert (Hempty : forall key,
               Js.inheritedMember key = false ->
               Js.get (Object_fromEntries ([] : list (string * PolicyValue))) key
               = Js.Absent).
    { intros key Hkey. apply get_absent; [apply lookup_empty|exact Hkey]. }
    rewrite (isAllowed_publisher_level _ (Object_fromEntries []) ext publisher);
      [|reflexivity|now apply Hempty|exact Hresolved].
    rewrite (Hempty publisher Hpublisher). reflexivity.
Qed.

Lemma permitted_needs_entry_witness :
  isAllowed (constructor [("old", "new")] (CObject [])) (minimal "old.ext" None None None)
  = Returns (Denied specific_extension_not_allowed).
Proof.
  apply (proj2 permitted_needs_entry _ _ "new"); vm_compute; reflexivity.
Defined.

(** ** The publisher rule, entry by entry *)

(** X25.  When the lookup of the id finds nothing and the publisher
    resolves to a key, an entry of the table under that key that is neither
    a boolean nor "release" against a pre-release permits the extension; in
    particular a version list does, whatever the version and the target
    platform. *)
Theorem publisher_entry_permits this allowed ext publisher v :
  allowedExtensions this = Some allowed ->
  Js.get allowed (Locals.id (locals ext)) = Js.Absent ->
  resolvePublisher (publisherMappings this) (Locals.publisher (locals ext))
  = Returns publisher ->
  allowed !! publisher = Some v ->
  isBoolean v = false ->
  ~ (v = VString "release" /\ Locals.prerelease (locals ext) = true) ->
  isAllowed this ext = Returns Allowed.
Proof.
  intros Hthis Hid Hresolved Hentry Hbool Hrelease.
  rewrite (isAllowed_publisher_level this allowed ext publisher Hthis Hid Hresolved).
  rewrite (get_own _ _ _ Hentry), Hbool.
  destruct v as [b|s|vs]; simpl; [discriminate| |reflexivity].
  destruct (String.eqb_spec s "release") as [->|_]; [|reflexivity].
  destruct (Locals.prerelease (locals ext)); [|reflexivity].
  exfalso. now apply Hrelease.
Qed.

Lemma publisher_entry_permits_witness :
  isAllowed (constructor [] (CObject [("pub", VArray ["1.2.3@win32"])]))
            (minimal "pub.ext" (Some "9.9.9") (Some true) (Some "linux"))
  = Returns Allowed.
Proof.
  apply (publisher_entry_permits _
           (Object_fromEntries [("pub", VArray ["1.2.3@win32"])]) _ "pub"
           (VArray ["1.2.3@win32"]));
    try (vm_compute; reflexivity).
  intros [[=] _].
Defined.

(** X26.  When the lookup of the id and the lookup of the key the publisher
    resolves to find nothing, the extension is permitted exactly when the
    table maps "*" to [true], and is otherwise denied as not in the allowed
    list. *)
Theorem wildcard_decides_last this allowed ext publisher :
  allowedExtensions this = Some allowed ->
  Js.get allowed (Locals.id (locals ext)) = Js.Absent ->
  resolvePublisher (publisherMappings this) (Locals.publisher (locals ext))
  = Returns publisher ->
  Js.get allowed publisher = Js.Absent ->
  (isAllowed this ext = Returns Allowed <-> allowed !! "*" = Some (VBool true))
  /\ (allowed !! "*" <> Some (VBool true) ->
      isAllowed this ext = Returns (Denied specific_extension_not_allowed)).
Proof.
  intros Hthis Hid Hresolved Hpublisher.
  rewrite (isAllowed_publisher_level this allowed ext publisher Hthis Hid Hresolved).
  rewrite Hpublisher.
  pose proof (wildcardIsTrue_lookup allowed) as Hwild.
  destruct (wildcardIsTrue allowed).
  - split; [split; [intros _; now apply Hwild|reflexivity]|].
    intros Hne. exfalso. apply Hne. now apply Hwild.
  - split; [split; [discriminate|]|reflexivity].
    intros Hstar. apply Hwild in Hstar. discriminate.
Qed.

Lemma wildcard_decides_last_witness :
  (isAllowed (constructor [] (CObject [("other.ext", VBool true); ("*", VBool true)]))
             (minimal "pub.ext" None None None) = Returns Allowed
   <-> Object_fromEntries [("other.ext", VBool true); ("*", VBool true)] !! "*"
       = Some (VBool true))
  /\ isAllowed (constructor [] (CObject [("other.ext", VBool true); ("*", VString "release")]))
               (minimal "pub.ext" None None None)
     = Returns (Denied specific_extension_not_allowed).
Proof.
  split.
  - apply (wildcard_decides_last _
             (Object_fromEntries [("other.ext", VBool true); ("*", VBool true)]) _ "pub");
      vm_compute; reflexivity.
  - apply (wildcard_decides_last _
             (Object_fromEntries [("other.ext", VBool true); ("*", VString "release")])
             _ "pub");
      try (vm_compute; reflexivity).
    vm_compute. discriminate.
Defined.

(** X27.  When the lookup of the id finds nothing, the publisher rule reads
    the table under the alias of the publisher, in lower case, when the alias
    table has an entry for the publisher, and under the name of the publisher
    itself when the lookup in the alias table finds nothing: a boolean entry
    there permits or denies the publisher. *)
Theorem alias_decides_the_key this allowed ext b :
  allowedExtensions this = Some allowed ->
  Js.get allowed (Locals.id (locals ext)) = Js.Absent ->
  (forall canonical,
      publisherMappings this !! Locals.publisher (locals ext) = Some canonical ->
      allowed !! Js.toLowerCase canonical = Some (VBool b) ->
      isAllowed this ext = Returns (if b then Allowed else Denied publisher_not_allowed))
  /\ (Js.get (publisherMappings this) (Locals.publisher (locals ext)) = Js.Absent ->
      allowed !! Locals.publisher (locals ext) = Some (VBool b) ->
      isAllowed this ext = Returns (if b then Allowed else Denied publisher_not_allowed)).
Proof.
  intros Hthis Hid. split.
  - intros canonical Halias Hentry.
    rewrite (isAllowed_publisher_level this allowed ext (Js.toLowerCase canonical) Hthis Hid);
      [|now apply resolvePublisher_alias].
    rewrite (get_own _ _ _ Hentry). now destruct b.
  - intros Hnone Hentry.
    rewrite (isAllowed_publisher_level this allowed ext (Locals.publisher (locals ext))
               Hthis Hid);
      [|now apply resolvePublisher_no_alias].
    rewrite (get_own _ _ _ Hentry). now destruct b.
Qed.

Lemma alias_decides_the_key_witness :
  isAllowed (constructor [("OldName", "NewName")]
               (CObject [("newname", VBool false); ("oldname", VBool true)]))
            (minimal "oldname.ext" None None None)
  = Returns (Denied publisher_not_allowed)
  /\ isAllowed (constructor [("OldName", "NewName")]
                  (CObject [("newname", VBool false); ("oldname", VBool true)]))
               (minimal "newname.ext" None None None)
     = Returns (Denied publisher_not_allowed).
Proof.
  split.
  - assert (Hloaded : allowedExtensions
                        (constructor [("OldName", "NewName")]
                           (CObject [("newname", VBool false); ("oldname", VBool true)]))
                      = Some (Object_fromEntries
                                [("newname", VBool false); ("oldname", VBool true)]))
      by reflexivity.
    assert (Hid : Js.get (Object_fromEntries
                            [("newname", VBool false); ("oldname", VBool true)])
                         (Locals.id (locals (minimal "oldname.ext" None None None)))
                  = Js.Absent)
      by (vm_compute; reflexivity).
    apply (proj1 (alias_decides_the_key _ _ _ false Hloaded Hid) "newname");
      vm_compute; reflexivity.
  - assert (Hloaded : allowedExtensions
                        (constructor [("OldName", "NewName")]
                           (CObject [("newname", VBool false); ("oldname", VBool true)]))
                      = Some (Object_fromEntries
                                [("newname", VBool false); ("oldname", VBool true)]))
      by reflexivity.
    assert (Hid : Js.get (Object_fromEntries
                            [("newname", VBool false); ("oldname", VBool true)])
                         (Locals.id (locals (minimal "newname.ext" None None None)))
                  = Js.Absent)
      by (vm_compute; reflexivity).
    apply (proj2 (alias_decides_the_key _ _ _ false Hloaded Hid));
      vm_compute; reflexivity.
Defined.

(** X28.  The members every object inherits are read as entries.  Under a
    loaded table without an entry for the id "constructor" or "__proto__",
    an extension of that id is permitted whatever the table holds; and when
    the lookup of the id finds nothing and the alias table has no entry for
    the publisher "constructor" or "__proto__", the call throws. *)
Theorem inherited_members_are_read this allowed ext :
  allowedExtensions this = Some allowed ->
  (Locals.id (locals ext) = "constructor" \/ Locals.id (locals ext) = "__proto__" ->
   allowed !! Locals.id (locals ext) = None ->
   isAllowed this ext = Returns Allowed)
  /\ (Locals.publisher (locals ext) = "constructor"
      \/ Locals.publisher (locals ext) = "__proto__" ->
      Js.get allowed (Locals.id (locals ext)) = Js.Absent ->
      publisherMappings this !! Locals.publisher (locals ext) = None ->
      isAllowed this ext = Throws TypeError).
Proof.
  intros Hthis. split.
  - intros Hname Hnone. unfold isAllowed. rewrite Hthis. cbv zeta.
    rewrite (get_inherited allowed _ Hnone); [reflexivity|].
    now destruct Hname as [-> | ->].
  - intros Hname Hid Hnone.
    apply isAllowed_Throws. exists allowed. split; [exact Hthis|]. split; [exact Hid|].
    apply get_inherited; [exact Hnone|]. now destruct Hname as [-> | ->].
Qed.

Lemma inherited_members_are_read_witness :
  isAllowed (constructor [] (CObject [("*", VBool false)]))
            (minimal "__proto__" None None None)
  = Returns Allowed
  /\ isAllowed (constructor [] (CObject [("__proto__", VBool false)]))
               (minimal "__proto__.ext" None None None)
     = Throws TypeError.
Proof.
  split.
  - assert (Hloaded : allowedExtensions (constructor [] (CObject [("*", VBool false)]))
                      = Some (Object_fromEntries [("*", VBool false)]))
      by reflexivity.
    apply (proj1 (inherited_members_are_read _ _ _ Hloaded));
      [right|]; vm_compute; reflexivity.
  - assert (Hloaded : allowedExtensions
                        (constructor [] (CObject [("__proto__", VBool false)]))
                      = Some (Object_fromEntries [("__proto__", VBool false)]))
      by reflexivity.
    apply (proj2 (inherited_members_are_read _ _ _ Hloaded));
      [right| |]; vm_compute; reflexivity.
Defined.

(** ** What the pattern accepts, entry by entry *)

(** X12.  An entry the pattern accepts is spelled by what is read off it:
    it is its version, followed by "@" and its platform when it has one.
    The version is three numbers separated by dots, with nothing or a dash
    and a tag after them; the platform is not empty and holds no line
    terminator. *)
Theorem accepted_entry_shape entry v :
  entryVersion entry = Some v ->
  (exists major minor patch suffix,
      v = plainVersion major minor patch ++ suffix
      /\ isNumber major = true /\ isNumber minor = true /\ isNumber patch = true
      /\ isPrereleaseSuffix suffix)
  /\ match entryPlatform entry with
     | Some p => entry = v ++ "@" ++ p /\ p <> "" /\ allInClass RegExp.Dot p = true
     | None => entry = v
     end.
Proof.
  unfold entryVersion, entryPlatform.
  destruct (RegExp.exec VersionRegex entry) as [groups|] eqn:Hexec; [|discriminate].
  simpl. intros Hv.
  apply exec_shape in Hexec
    as (v' & major & minor & patch & suffix & Hgv & Hshape & Hnumbers).
  rewrite Hgv in Hv. injection Hv as <-.
  destruct Hnumbers as (Hmajor & Hminor & Hpatch & Hsuffix & Hentry).
  split; [|exact Hentry].
  exists major, minor, patch, suffix. auto.
Qed.

Lemma accepted_entry_shape_witness :
  (exists major minor patch suffix,
      "10.2.3" = plainVersion major minor patch ++ suffix
      /\ isNumber major = true /\ isNumber minor = true /\ isNumber patch = true
      /\ isPrereleaseSuffix suffix)
  /\ "10.2.3@linux-x64" = "10.2.3" ++ "@" ++ "linux-x64"
  /\ "linux-x64" <> ""
  /\ allInClass RegExp.Dot "linux-x64" = true.
Proof.
  apply (accepted_entry_shape "10.2.3@linux-x64" "10.2.3").
  reflexivity.
Defined.

(** X13.  After the dash of a pre-release suffix everything up to the end
    belongs to the version: an entry [major.minor.patch-tag] whose tag holds
    no line terminator is read as one version without platform, also when
    the tag holds an "@". *)
Theorem prerelease_entry_is_one_version major minor patch tag :
  isNumber major = true -> isNumber minor = true -> isNumber patch = true ->
  allInClass RegExp.Dot tag = true ->
  entryVersion (plainVersion major minor patch ++ "-" ++ tag)
  = Some (plainVersion major minor patch ++ "-" ++ tag)
  /\ entryPlatform (plainVersion major minor patch ++ "-" ++ tag) = None.
Proof.
  intros Hmajor Hminor Hpatch Htag.
  unfold entryVersion, entryPlatform.
  rewrite (exec_prerelease major minor patch tag Hmajor Hminor Hpatch Htag).
  split; reflexivity.
Qed.

Lemma prerelease_entry_is_one_version_witness :
  entryVersion (plainVersion "1" "20" "3" ++ "-" ++ "beta.1@linux-x64")
  = Some (plainVersion "1" "20" "3" ++ "-" ++ "beta.1@linux-x64")
  /\ entryPlatform (plainVersion "1" "20" "3" ++ "-" ++ "beta.1@linux-x64") = None.
Proof.
  apply prerelease_entry_is_one_version; reflexivity.
Defined.

(** X14.  The pattern accepts exactly the entries [major.minor.patch],
    [major.minor.patch@platform] with a platform that is not empty, and
    [major.minor.patch-tag], where platform and tag hold no line
    terminator. *)
Theorem accepted_entries entry :
  RegExp.exec VersionRegex entry <> None
  <-> exists major minor patch,
        isNumber major = true /\ isNumber minor = true /\ isNumber patch = true
        /\ (entry = plainVersion major minor patch
            \/ (exists p, entry = plainVersion major minor patch ++ "@" ++ p
                          /\ p <> "" /\ allInClass RegExp.Dot p = true)
            \/ (exists tag, entry = plainVersion major minor patch ++ "-" ++ tag
                            /\ allInClass RegExp.Dot tag = true)).
Proof.
  split.
  - destruct (RegExp.exec VersionRegex entry) as [groups|] eqn:Hexec; [|congruence].
    intros _.
    apply exec_shape in Hexec
      as (v & major & minor & patch & suffix & _ & -> & Hmajor & Hminor & Hpatch
          & Hsuffix & Hentry).
    exists major, minor, patch. repeat (split; [assumption|]).
    destruct Hsuffix as [->|(tag & -> & Htag)].
    + rewrite append_nil_r in Hentry.
      destruct (RegExp.g_platform groups) as [p|].
      * destruct Hentry as (-> & Hne & Hp). right. left. now exists p.
      * now left.
    + right. right.
      destruct (RegExp.g_platform groups) as [p|].
      * destruct Hentry as (-> & Hne & Hp).
        exists (tag ++ "@" ++ p). rewrite !append_assoc. split; [reflexivity|].
        clear -Htag Hp. induction tag as [|c tag IH].
        -- rewrite append_nil_l, append_cons, append_nil_l. simpl. exact Hp.
        -- simpl in Htag. apply andb_true_iff in Htag as [Hc Htag].
           rewrite append_cons. simpl. now rewrite Hc, IH.
      * subst entry. now exists tag.
  - intros (major & minor & patch & Hmajor & Hminor & Hpatch &
            [->|[(p & -> & Hne & Hp)|(tag & -> & Htag)]]).
    + now rewrite exec_plain.
    + now rewrite exec_plain_platform.
    + now rewrite exec_prerelease.
Qed.

(** ** Consequences for version lists *)

(** X15.  A version list only ever admits versions that begin with a
    digit: an extension whose version is definite and does not begin with
    one is denied by every version list. *)
Theorem version_list_needs_leading_digit this allowed ext vs :
  allowedExtensions this = Some allowed ->
  allowed !! Locals.id (locals ext) = Some (VArray vs) ->
  Locals.version (locals ext) <> "*" ->
  noLeadingDigit (Locals.version (locals ext)) ->
  isAllowed this ext = Returns (Denied specific_extension_not_allowed).
Proof.
  intros Hthis Hid Hversion Hshape.
  rewrite (isAllowed_version_list this allowed ext vs Hthis Hid Hversion).
  destruct (some _ _) eqn:Hsome; [|reflexivity].
  exfalso.
  apply some_versionMatches in Hsome as (entry & _ & Hm).
  apply versionMatches_spec in Hm as [Hv _].
  unfold entryVersion in Hv.
  destruct (RegExp.exec VersionRegex entry) as [groups|] eqn:Hexec; [|discriminate].
  apply exec_shape in Hexec
    as (v & major & minor & patch & suffix & Hgv & -> & Hmajor & _).
  simpl in Hv. rewrite Hgv in Hv. injection Hv as Hv. rewrite <- Hv in Hshape.
  now apply (plainVersion_leading_digit major minor patch suffix Hmajor).
Qed.

Lemma version_list_needs_leading_digit_witness :
  isAllowed (constructor [] (CObject [("pub.ext", VArray ["1.2.3"; "v1.2.3"])]))
            (minimal "pub.ext" (Some "v1.2.3") None None)
  = Returns (Denied specific_extension_not_allowed).
Proof.
  apply (version_list_needs_leading_digit _
           (Object_fromEntries [("pub.ext", VArray ["1.2.3"; "v1.2.3"])])
           _ ["1.2.3"; "v1.2.3"]);
    try (vm_compute; reflexivity).
  discriminate.
Defined.

(** X16.  An entry [major.minor.patch] without platform suffix admits its
    version on every target platform. *)
Theorem plain_entry_admits_every_platform this allowed ext vs major minor patch :
  allowedExtensions this = Some allowed ->
  allowed !! Locals.id (locals ext) = Some (VArray vs) ->
  isNumber major = true -> isNumber minor = true -> isNumber patch = true ->
  In (plainVersion major minor patch) vs ->
  Locals.version (locals ext) = plainVersion major minor patch ->
  isAllowed this ext = Returns Allowed.
Proof.
  intros Hthis Hid Hmajor Hminor Hpatch Hin Hversion.
  assert (Hne : Locals.version (locals ext) <> "*")
    by (rewrite Hversion; now apply plainVersion_not_star).
  rewrite (isAllowed_version_list this allowed ext vs Hthis Hid Hne).
  replace (some _ _) with true; [reflexivity|].
  symmetry. apply some_versionMatches. exists (plainVersion major minor patch).
  split; [exact Hin|]. apply versionMatches_spec.
  unfold entryVersion, entryPlatform. rewrite (exec_plain _ _ _ Hmajor Hminor Hpatch).
  simpl. rewrite Hversion. auto.
Qed.

Lemma plain_entry_admits_every_platform_witness :
  isAllowed (constructor [] (CObject [("pub.ext", VArray ["1.2.3@win32"; "2.0.0"])]))
            (minimal "pub.ext" (Some "2.0.0") None (Some "darwin-arm64"))
  = Returns Allowed.
Proof.
  apply (plain_entry_admits_every_platform _
           (Object_fromEntries [("pub.ext", VArray ["1.2.3@win32"; "2.0.0"])])
           _ ["1.2.3@win32"; "2.0.0"] "2" "0" "0");
    try (vm_compute; reflexivity).
  right. left. reflexivity.
Defined.

(** X17.  An entry [major.minor.patch-tag] whose tag holds no line
    terminator admits one version only, the one spelled like the whole
    entry, and that on every target platform; so for such a tag an entry
    written [major.minor.patch-tag@platform] does not admit the version
    [major.minor.patch-tag], whatever the platform holds. *)
Theorem prerelease_entry_admits_itself major minor patch tag :
  isNumber major = true -> isNumber minor = true -> isNumber patch = true ->
  allInClass RegExp.Dot tag = true ->
  (forall version targetPlatform,
      versionMatches version targetPlatform (plainVersion major minor patch ++ "-" ++ tag)
      = true
      <-> version = plainVersion major minor patch ++ "-" ++ tag)
  /\ (forall platform targetPlatform,
      versionMatches (plainVersion major minor patch ++ "-" ++ tag) targetPlatform
        (plainVersion major minor patch ++ "-" ++ tag ++ "@" ++ platform)
      = false).
Proof.
  intros Hmajor Hminor Hpatch Htag.
  assert (Hiff : forall tag', allInClass RegExp.Dot tag' = true ->
            forall version targetPlatform,
              versionMatches version targetPlatform
                (plainVersion major minor patch ++ "-" ++ tag') = true
              <-> version = plainVersion major minor patch ++ "-" ++ tag').
  { intros tag' Htag' version targetPlatform.
    rewrite versionMatches_spec. unfold entryVersion, entryPlatform.
    rewrite (exec_prerelease _ _ _ _ Hmajor Hminor Hpatch Htag'). simpl.
    split; [intros [[= <-] _]; reflexivity|intros ->; auto]. }
  split; [exact (Hiff tag Htag)|].
  intros platform targetPlatform.
  destruct (versionMatches _ _ _) eqn:Hm; [|reflexivity].
  exfalso.
  destruct (allInClass RegExp.Dot (tag ++ "@" ++ platform)) eqn:Hall.
  - apply (Hiff _ Hall) in Hm.
    apply (f_equal String.length) in Hm.
    rewrite !length_append in Hm. simpl in Hm. lia.
  - unfold versionMatches in Hm.
    destruct (RegExp.exec VersionRegex _) as [groups|] eqn:Hexec; [|discriminate].
    apply exec_shape in Hexec
      as (v & major' & minor' & patch' & suffix & Hgv & -> & _ & _ & _ & _ & Hentry).
    rewrite Hgv in Hm. simpl in Hm.
    destruct (String.eqb_spec (plainVersion major' minor' patch' ++ suffix)
                (plainVersion major minor patch ++ "-" ++ tag)) as [Heq|]; [|discriminate].
    rewrite Heq in Hentry.
    destruct (RegExp.g_platform groups) as [p|].
    + destruct Hentry as (Hentry & _ & Hp).
      rewrite !append_assoc in Hentry.
      do 3 apply String.app_inj in Hentry.
      injection Hentry as Hplatform.
      rewrite allInClass_app, Htag in Hall.
      rewrite append_cons, append_nil_l in Hall. simpl in Hall.
      rewrite !append_nil_l in Hplatform. congruence.
    + apply (f_equal String.length) in Hentry.
      rewrite !length_append in Hentry. simpl in Hentry. lia.
Qed.

Lemma prerelease_entry_admits_itself_witness :
  versionMatches "1.2.3-beta" "win32" "1.2.3-beta@win32" = false.
Proof.
  apply (proj2 (prerelease_entry_admits_itself "1" "2" "3" "beta"
                  eq_refl eq_refl eq_refl eq_refl) "win32" "win32").
Defined.

(** ** Mapping a line through the changes *)

Module BlameFacts.
Import Blame.

Lemma mapLoop_before lineNumber change changes :
  (lineNumber < startLineNumber (modified change))%Z ->
  mapLoop lineNumber (change :: changes) = Some lineNumber.
Proof. intros Hlt. simpl. now apply Z.ltb_lt in Hlt as ->. Qed.

(** X18.  A line above the first change keeps its number, whatever the
    changes are, and so does every line when there is no change. *)
Theorem line_above_first_change_unmoved lineNumber changes :
  match changes with
  | [] => True
  | change :: _ => (lineNumber < startLineNumber (modified change))%Z
  end ->
  mapModifiedLineNumberToOriginalLineNumber lineNumber changes = Some lineNumber.
Proof.
  destruct changes as [|change changes]; [reflexivity|].
  intros Hlt. unfold mapModifiedLineNumberToOriginalLineNumber.
  change (length (change :: changes) =? 0)%nat with false. cbv iota.
  now apply mapLoop_before.
Qed.

Lemma line_above_first_change_unmoved_witness :
  mapModifiedLineNumberToOriginalLineNumber 3
    [ {| original := {| startLineNumber := 5; endLineNumberExclusive := 5 |};
         modified := {| startLineNumber := 5; endLineNumberExclusive := 9 |};
         kind := Addition |};
      {| original := {| startLineNumber := 1; endLineNumberExclusive := 2 |};
         modified := {| startLineNumber := 1; endLineNumberExclusive := 1 |};
         kind := UnexpectedKind |} ]
  = Some 3%Z.
Proof.
  apply line_above_first_change_unmoved. reflexivity.
Defined.

(** X19.  Modifications that keep the number of lines move no line: when
    every change is a modification whose original and modified ranges have
    the same length, every line keeps its number. *)
Theorem equal_length_modifications_unmoved lineNumber changes :
  Forall (fun change =>
            kind change = Modification
            /\ lineRangeLength (startLineNumber (original change))
                               (endLineNumberExclusive (original change))
               = lineRangeLength (startLineNumber (modified change))
                                 (endLineNumberExclusive (modified change)))
         changes ->
  mapModifiedLineNumberToOriginalLineNumber lineNumber changes = Some lineNumber.
Proof.
  intros Hchanges. unfold mapModifiedLineNumberToOriginalLineNumber.
  destruct (length changes =? 0)%nat; [reflexivity|].
  induction Hchanges as [|change changes [Hkind Hlen] _ IH]; [reflexivity|].
  simpl. destruct (lineNumber <? _)%Z; [reflexivity|].
  rewrite Hkind, Hlen, Z.eqb_refl. exact IH.
Qed.

Lemma equal_length_modifications_unmoved_witness :
  mapModifiedLineNumberToOriginalLineNumber 40
    [ {| original := {| startLineNumber := 5; endLineNumberExclusive := 8 |};
         modified := {| startLineNumber := 5; endLineNumberExclusive := 8 |};
         kind := Modification |};
      {| original := {| startLineNumber := 20; endLineNumberExclusive := 21 |};
         modified := {| startLineNumber := 20; endLineNumberExclusive := 21 |};
         kind := Modification |} ]
  = Some 40%Z.
Proof.
  apply equal_length_modifications_unmoved.
  repeat constructor.
Defined.

Lemma mapLoop_prefix lineNumber changes :
  Forall (fun change => kind change <> UnexpectedKind) changes ->
  exists n, (n <= length changes)%nat
            /\ mapLoop lineNumber changes
               = Some (lineNumber - fold_right Z.add 0 (map shift (firstn n changes)))%Z.
Proof.
  intros Hchanges. revert lineNumber.
  induction Hchanges as [|change changes Hkind _ IH]; intros lineNumber.
  - exists 0%nat. split; [reflexivity|]. simpl. f_equal. lia.
  - simpl mapLoop. destruct (lineNumber <? _)%Z.
    + exists 0%nat. split; [simpl; lia|]. simpl. f_equal. lia.
    + assert (Hstep : forall line',
                line' = (lineNumber - shift change)%Z ->
                exists n, (n <= length (change :: changes))%nat
                          /\ mapLoop line' changes
                             = Some (lineNumber
                                     - fold_right Z.add 0
                                         (map shift (firstn n (change :: changes))))%Z).
      { intros line' ->. destruct (IH (lineNumber - shift change)%Z) as (n & Hn & ->).
        exists (S n). split; [simpl; lia|]. simpl. f_equal. lia. }
      unfold shift in Hstep. destruct (kind change); [| | |congruence].
      * apply Hstep. reflexivity.
      * apply Hstep. lia.
      * cbv zeta. destruct (Z.eqb_spec
                              (lineRangeLength (startLineNumber (original change))
                                               (endLineNumberExclusive (original change)))
                              (lineRangeLength (startLineNumber (modified change))
                                               (endLineNumberExclusive (modified change))))
          as [Heq|_]; simpl; apply Hstep; [lia|reflexivity].
Qed.

(** X20.  With changes of the three kinds the mapping never throws, and
    what it returns is the line number moved by the shifts of the changes it
    has processed, which are the first ones of the list: an addition moves
    the line up by its length, a deletion down by the length of what was
    deleted, a modification up by its growth. *)
Theorem mapped_line_is_shifted_by_a_prefix lineNumber changes :
  Forall (fun change => kind change <> UnexpectedKind) changes ->
  exists n, (n <= length changes)%nat
            /\ mapModifiedLineNumberToOriginalLineNumber lineNumber changes
               = Some (lineNumber - fold_right Z.add 0 (map shift (firstn n changes)))%Z.
Proof.
  intros Hchanges. unfold mapModifiedLineNumberToOriginalLineNumber.
  destruct (length changes =? 0)%nat.
  - exists 0%nat. split; [lia|]. simpl. f_equal. lia.
  - now apply mapLoop_prefix.
Qed.

Lemma mapped_line_is_shifted_by_a_prefix_witness :
  let changes :=
    [ {| original := {| startLineNumber := 2; endLineNumberExclusive := 2 |};
         modified := {| startLineNumber := 2; endLineNumberExclusive := 5 |};
         kind := Addition |};
      {| original := {| startLineNumber := 30; endLineNumberExclusive := 32 |};
         modified := {| startLineNumber := 33; endLineNumberExclusive := 33 |};
         kind := Deletion |} ] in
  exists n, (n <= length changes)%nat
    /\ mapModifiedLineNumberToOriginalLineNumber 12 changes
       = Some (12 - fold_right Z.add 0 (map shift (firstn n changes)))%Z.
Proof.
  intros changes.
  apply mapped_line_is_shifted_by_a_prefix.
  repeat constructor; discriminate.
Defined.

(** ** Blame of the selected lines *)

Section LineBlameFacts.
Context {BlameInformation : Type} (ranges : BlameInformation -> list BlameRange.t).

(** X21.  The lines reported are selected lines, in the order of the
    selections and at most once per selection. *)
Theorem reported_lines_are_selected workingTree workingTreeAndIndex resource lines out :
  lineBlameLoop ranges workingTree workingTreeAndIndex resource lines = Some out ->
  sublist (map lineNumber out) lines.
Proof.
  revert out. induction lines as [|line lines IH]; simpl; intros out.
  - intros [= <-]. constructor.
  - destruct (lineBlameLoop ranges workingTree workingTreeAndIndex resource lines) as [out'|];
      simpl.
    + specialize (IH out' eq_refl).
      destruct (lineRangesContainLine workingTree _);
        [intros [= <-]; now apply sublist_skip|].
      destruct (lineRangesContainLine (Js.nullish workingTreeAndIndex []) _);
        [intros [= <-]; now apply sublist_skip|].
      destruct (mapModifiedLineNumberToOriginalLineNumber _ _) as [n|]; [|discriminate].
      destruct (List.find _ resource) as [b|].
      * intros [= <-]. now apply sublist_skip.
      * intros [= <-]. now apply sublist_cons.
    + destruct (lineRangesContainLine workingTree _); [discriminate|].
      destruct (lineRangesContainLine (Js.nullish workingTreeAndIndex []) _); [discriminate|].
      destruct (mapModifiedLineNumberToOriginalLineNumber _ _) as [n|]; [|discriminate].
      destruct (List.find _ resource); discriminate.
Qed.

(** X22.  What is reported for a line is right for that line: the message
    for uncommitted lines exactly for a line within a change of the working
    tree; the message for staged lines only for a line outside those changes
    and within a change of working tree and index; and a commit only for a
    line outside both, for a commit of the resource one of whose ranges holds
    the line as mapped through the changes. *)
Theorem reported_blame_is_sound workingTree workingTreeAndIndex resource lines out entry :
  lineBlameLoop ranges workingTree workingTreeAndIndex resource lines = Some out ->
  In entry out ->
  let line := (lineNumber entry + 1)%Z in
  match blameInformation entry with
  | Commit b =>
      lineRangesContainLine workingTree line = false
      /\ lineRangesContainLine (Js.nullish workingTreeAndIndex []) line = false
      /\ In b resource
      /\ exists lineNumberWithDiff range,
           mapModifiedLineNumberToOriginalLineNumber
             line (Js.nullish workingTreeAndIndex workingTree) = Some lineNumberWithDiff
           /\ In range (ranges b)
           /\ (BlameRange.startLineNumber range <= lineNumberWithDiff
               <= BlameRange.endLineNumber range)%Z
  | Text message =>
      (message = "Not Committed Yet" /\ lineRangesContainLine workingTree line = true)
      \/ (message = "Not Committed Yet (Staged)"
          /\ lineRangesContainLine workingTree line = false
          /\ lineRangesContainLine (Js.nullish workingTreeAndIndex []) line = true)
  end.
Proof.
  revert out. induction lines as [|line lines IH]; simpl; intros out.
  - intros [= <-] [].
  - destruct (lineBlameLoop ranges workingTree workingTreeAndIndex resource lines) as [out'|];
      simpl.
    + specialize (IH out' eq_refl).
      destruct (lineRangesContainLine workingTree (line + 1)) eqn:Hwt.
      { intros [= <-] [<-|Hin]; [simpl; auto|now apply IH]. }
      destruct (lineRangesContainLine (Js.nullish workingTreeAndIndex []) (line + 1))
        eqn:Hindex.
      { intros [= <-] [<-|Hin]; [simpl; auto|now apply IH]. }
      destruct (mapModifiedLineNumberToOriginalLineNumber _ _) as [n|] eqn:Hmap;
        [|discriminate].
      destruct (List.find _ resource) as [b|] eqn:Hfind.
      * intros [= <-] [<-|Hin]; [|now apply IH]. simpl.
        apply find_some in Hfind as [Hb Hrange].
        apply existsb_exists in Hrange as (range & Hrange & Hholds).
        unfold rangeHolds in Hholds. apply andb_true_iff in Hholds as [Hlo Hhi].
        repeat split; try assumption.
        exists n, range. repeat split; try assumption; lia.
      * intros [= <-]. apply IH.
    + destruct (lineRangesContainLine workingTree _); [discriminate|].
      destruct (lineRangesContainLine (Js.nullish workingTreeAndIndex []) _); [discriminate|].
      destruct (mapModifiedLineNumberToOriginalLineNumber _ _) as [n|]; [|discriminate].
      destruct (List.find _ resource); discriminate.
Qed.

(** X23.  No selected line within a change of the working tree is left
    out or blamed on a commit: it is reported as not committed yet. *)
Theorem uncommitted_lines_are_reported workingTree workingTreeAndIndex resource lines out line :
  lineBlameLoop ranges workingTree workingTreeAndIndex resource lines = Some out ->
  In line lines ->
  lineRangesContainLine workingTree (line + 1) = true ->
  In {| lineNumber := line; blameInformation := Text "Not Committed Yet" |} out.
Proof.
  revert out. induction lines as [|line' lines IH]; simpl; intros out; [intros _ []|].
  destruct (lineBlameLoop ranges workingTree workingTreeAndIndex resource lines) as [out'|]; simpl.
  - specialize (IH out' eq_refl).
    intros Hout Hin Hwt.
    assert (Htail : In line lines ->
              In {| lineNumber := line; blameInformation := Text "Not Committed Yet" |} out').
    { intros Hin'. now apply IH. }
    destruct (lineRangesContainLine workingTree (line' + 1)) eqn:Hwt'.
    { injection Hout as <-. destruct Hin as [->|Hin]; [now left|right; auto]. }
    assert (Hother : In line lines).
    { destruct Hin as [->|Hin]; [congruence|exact Hin]. }
    destruct (lineRangesContainLine (Js.nullish workingTreeAndIndex []) _).
    { injection Hout as <-. right. auto. }
    destruct (mapModifiedLineNumberToOriginalLineNumber _ _) as [n|]; [|discriminate Hout].
    destruct (List.find _ resource) as [b|]; injection Hout as <-; [right|]; auto.
  - intros Hout _ _. exfalso.
    destruct (lineRangesContainLine workingTree (line' + 1)); [discriminate Hout|].
    destruct (lineRangesContainLine (Js.nullish workingTreeAndIndex []) _);
      [discriminate Hout|].
    destruct (mapModifiedLineNumberToOriginalLineNumber _ _) as [n|]; [|discriminate Hout].
    destruct (List.find _ resource); discriminate Hout.
Qed.

End LineBlameFacts.

Lemma reported_lines_are_selected_witness :
  sublist (map lineNumber Example.reported) Example.lines.
Proof.
  apply (reported_lines_are_selected Example.ranges Example.changes None Example.resource).
  reflexivity.
Defined.

Lemma reported_blame_is_sound_witness :
  lineRangesContainLine Example.changes 8 = false
  /\ lineRangesContainLine [] 8 = false
  /\ In "0a1b2c3d4e" Example.resource
  /\ exists lineNumberWithDiff range,
       mapModifiedLineNumberToOriginalLineNumber 8 Example.changes = Some lineNumberWithDiff
       /\ In range (Example.ranges "0a1b2c3d4e")
       /\ (BlameRange.startLineNumber range <= lineNumberWithDiff
           <= BlameRange.endLineNumber range)%Z.
Proof.
  apply (reported_blame_is_sound Example.ranges Example.changes None Example.resource
           Example.lines Example.reported
           {| lineNumber := 7; blameInformation := Commit "0a1b2c3d4e" |}).
  - reflexivity.
  - simpl. auto.
Defined.

Lemma uncommitted_lines_are_reported_witness :
  In {| lineNumber := 3; blameInformation := @Text string "Not Committed Yet" |}
     Example.reported.
Proof.
  apply (uncommitted_lines_are_reported Example.ranges Example.changes None Example.resource
           Example.lines Example.reported 3).
  - reflexivity.
  - simpl. auto.
  - reflexivity.
Defined.

End BlameFacts.

(** ** The focus tracker *)

Module FocusTrackerFacts.
Import FocusTracker.

Lemma last_of_cons {A} (x : A) (l : list A) d : List.last (x :: l) d = List.last l x.
Proof.
  revert x d. induction l as [|y l IH]; intros x d; [reflexivity|].
  change (List.last (x :: y :: l) d) with (List.last (y :: l) d).
  now rewrite !IH.
Qed.

(** X24.  The callback is called on changes only: the states it is told
    alternate, beginning with the opposite of the state the tracker was in,
    and the tracker ends in the state of the last event, which is also the
    last state the callback was told. *)
Theorem callback_on_changes_only this events :
  alternating (_isFocused this) (handle this events).2
  /\ _isFocused (handle this events).1 = List.last (handle this events).2 (_isFocused this)
  /\ _isFocused (handle this events).1 = List.last (map focusedOf events) (_isFocused this).
Proof.
  revert this. induction events as [|event events IH]; intros this.
  - cbn. auto.
  - simpl handle. unfold _handleFocusedChanged.
    destruct (Bool.eqb_spec (_isFocused this) (focusedOf event)) as [Heq|Hne].
    + specialize (IH this). destruct (handle this events) as [this' calls].
      cbn [fst snd map app alternating] in *. destruct IH as (Halt & Hlast & Hevents).
      split; [exact Halt|]. split; [exact Hlast|].
      rewrite Hevents. rewrite (last_of_cons (focusedOf event)). now rewrite Heq.
    + specialize (IH {| _isFocused := focusedOf event |}).
      destruct (handle {| _isFocused := focusedOf event |} events) as [this' calls].
      cbn [fst snd map app alternating] in *. destruct IH as (Halt & Hlast & Hevents).
      split; [split; [congruence|exact Halt]|].
      rewrite (last_of_cons (focusedOf event) calls).
      rewrite (last_of_cons (focusedOf event) (map focusedOf events)).
      auto.
Qed.

End FocusTrackerFacts.
